(** * get_tcia: manifest parsing, series download with retries, orchestration

    A shallow embedding of [get_tcia.py] and the properties of its three
    functions: [parse_manifest], [download_series] and
    [download_from_manifest].

    Conventions of the embedding.
    - A Python [str] is a [string]; each character stands for the code
      point of the same number (0 to 255).  File contents are strings too.
    - A [dict] from [str] to [list] of [str] is a [gmap string (list string)].
    - The file system, the remote service and the console are one explicit
      world that every effectful function threads through.
    - A Python exception is a value of [exn]; a computation that may raise
      returns a [result]. *)

From Stdlib Require Import ZArith NArith Lia List Ascii.
From stdpp Require Import base option list strings gmap.
From Equations Require Import Equations.

Local Open Scope Z_scope.

(** ** Python string primitives *)

Module Py.

(** [str.isspace] on one character: TAB, LF, VT, FF, CR, the separators
    FS GS RS US, the blank, NEL (133) and the no-break space (160). *)
Definition isspace (c : ascii) : bool :=
  let n := N_of_ascii c in
  (((9 <=? n) && (n <=? 13)) || ((28 <=? n) && (n <=? 32)) ||
   (n =? 133) || (n =? 160))%N.

Fixpoint lstrip (s : string) : string :=
  match s with
  | EmptyString => EmptyString
  | String c s' => if isspace c then lstrip s' else s
  end.

Fixpoint rstrip (s : string) : string :=
  match s with
  | EmptyString => EmptyString
  | String c s' =>
      match rstrip s' with
      | EmptyString => if isspace c then EmptyString else String c EmptyString
      | r => String c r
      end
  end.

(** [s.strip()] *)
Definition strip (s : string) : string := rstrip (lstrip s).

Fixpoint all_space (s : string) : bool :=
  match s with
  | EmptyString => true
  | String c s' => isspace c && all_space s'
  end.

(** [c in s] for a one-character [c] *)
Fixpoint contains (c : ascii) (s : string) : bool :=
  match s with
  | EmptyString => false
  | String d s' => if decide (c = d) then true else contains c s'
  end.

(** [s.partition(c)]: the part before the first [c], the separator, the part
    after it; [(s, "", "")] when [c] does not occur. *)
Fixpoint partition (c : ascii) (s : string) : string * string * string :=
  match s with
  | EmptyString => (EmptyString, EmptyString, EmptyString)
  | String d s' =>
      if decide (c = d) then (EmptyString, String c EmptyString, s')
      else let '(h, sep, t) := partition c s' in (String d h, sep, t)
  end.

(** Truth value of a [str]: false exactly for the empty string. *)
Definition truthy (s : string) : bool :=
  match s with EmptyString => false | String _ _ => true end.

Definition LF : ascii := "010"%char.
Definition CR : ascii := "013"%char.

(** Text mode with the default [newline=None]: CR LF and a lone CR are read
    as LF. *)
Fixpoint universal_newlines (s : string) : string :=
  match s with
  | EmptyString => EmptyString
  | String c s' =>
      if decide (c = CR) then
        match s' with
        | String d s'' =>
            if decide (d = LF) then String LF (universal_newlines s'')
            else String LF (universal_newlines s')
        | EmptyString => String LF EmptyString
        end
      else String c (universal_newlines s')
  end.

(** Iterating a text: the lines in order, each with its closing LF, the last
    one without when the text does not end in LF. *)
Fixpoint iter_lines (s : string) : list string :=
  match s with
  | EmptyString => []
  | String c s' =>
      if decide (c = LF) then String c EmptyString :: iter_lines s'
      else match iter_lines s' with
           | [] => [String c EmptyString]
           | l :: ls => String c l :: ls
           end
  end.

(** [for line in file] on a file opened in text mode. *)
Definition file_lines (text : string) : list string :=
  iter_lines (universal_newlines text).

End Py.

(** ** The manifest parser *)

(** The two local variables of [parse_manifest]. [current_key] starts as
    [None]. *)
Record pstate := PState {
  manifest_data : gmap string (list string);
  current_key : option string
}.

Definition pstate_init : pstate := PState ∅ None.

(** Truth value of [current_key]: [None] and the empty string are false. *)
Definition key_truthy (k : option string) : bool :=
  match k with Some k => Py.truthy k | None => false end.

(** One turn of the [for line in file] loop. [manifest_data[k].append(line)]
    is an [alter]: Python raises [KeyError] for an unregistered [k], which
    [current_key_registered] below excludes. *)
Definition parse_line (st : pstate) (raw : string) : pstate :=
  let line := Py.strip raw in
  if Py.contains "=" line then
    let '(k, _, value) := Py.partition "=" line in
    let k := Py.strip k in
    PState (<[k := if Py.truthy value then [Py.strip value] else []]>
              (manifest_data st))
           (Some k)
  else if key_truthy (current_key st) && Py.truthy line then
    match current_key st with
    | Some k => PState (alter (λ vs, vs ++ [line]) k (manifest_data st)) (Some k)
    | None => st
    end
  else st.

Definition parse_lines_from (st : pstate) (lines : list string) : pstate :=
  fold_left parse_line lines st.

Definition parse_lines (lines : list string) : pstate :=
  parse_lines_from pstate_init lines.

(** [parse_manifest] on the text of the file. *)
Definition parse_text (text : string) : gmap string (list string) :=
  manifest_data (parse_lines (Py.file_lines text)).

(** ** Exceptions and results *)

(** The exceptions the modelled operations raise. Every one of them is a
    subclass of Python's [Exception]. *)
Inductive exn :=
| ConnectionError | HTTPError (status : Z) | ChunkedEncodingError
| JSONDecodeError | AttributeError | IndexError | KeyError | TypeError
| ValueError
| FileNotFoundError | FileExistsError | IsADirectoryError
| NotADirectoryError | SameFileError.

Inductive result (A : Type) :=
| Ok (a : A)
| Raise (e : exn).
Arguments Ok {A} a.
Arguments Raise {A} e.

Definition is_ok {A} (r : result A) : bool :=
  match r with Ok _ => true | Raise _ => false end.

(** ** Paths *)

(** A [pathlib] path: whether it starts at the root, and its components.
    Components [..] and symbolic links are not resolved, a relative path
    names a place of its own (under the working directory), and a path
    that starts with two slashes is taken as one that starts at the root. *)
Record PurePath := Path { anchored : bool; parts : list string }.

Global Instance PurePath_eq_dec : EqDecision PurePath.
Proof. solve_decision. Defined.

Global Instance PurePath_countable : Countable PurePath :=
  inj_countable' (λ p, (anchored p, parts p)) (λ x, Path x.1 x.2)
    ltac:(by intros []).

(** [s.split("/")] *)
Fixpoint split_slash (s : string) : list string :=
  match s with
  | EmptyString => [EmptyString]
  | String c s' =>
      if decide (c = "/"%char) then EmptyString :: split_slash s'
      else match split_slash s' with
           | [] => [String c EmptyString]
           | p :: ps => String c p :: ps
           end
  end.

Definition starts_with_slash (s : string) : bool :=
  match s with String c _ => bool_decide (c = "/"%char) | EmptyString => false end.

Definition real_part (p : string) : bool :=
  negb (bool_decide (p = "")) && negb (bool_decide (p = ".")).

(** [pathlib.Path(s)]: empty components and [.] are dropped. *)
Definition path_of_string (s : string) : PurePath :=
  Path (starts_with_slash s) (filter (λ p, real_part p = true) (split_slash s)).

(** [p / q]: an anchored right operand replaces the left one. *)
Definition joinpath (p q : PurePath) : PurePath :=
  if anchored q then q else Path (anchored p) (parts p ++ parts q).

(** [p / s] for a string [s] *)
Definition join (p : PurePath) (s : string) : PurePath :=
  joinpath p (path_of_string s).

(** [p.name] *)
Definition name (p : PurePath) : string := List.last (parts p) "".

(** [p.parent] *)
Definition parent (p : PurePath) : PurePath :=
  Path (anchored p) (removelast (parts p)).

(** The path and its ancestors below the root, outermost first. *)
Definition lineage (p : PurePath) : list PurePath :=
  map (λ n, Path (anchored p) (take (S n) (parts p))) (seq 0 (length (parts p))).

(** ** The file system *)

Inductive node :=
| Dir
| File (content : string).

Global Instance node_eq_dec : EqDecision node.
Proof. solve_decision. Defined.

(** What a path names. A path without components is the root or the working
    directory, which always exists. *)
Definition lookup_node (fs : gmap PurePath node) (p : PurePath) : option node :=
  match parts p with
  | [] => Some Dir
  | _ => fs !! p
  end.

Definition path_exists (fs : gmap PurePath node) (p : PurePath) : bool :=
  match lookup_node fs p with Some _ => true | None => false end.

Definition is_file (fs : gmap PurePath node) (p : PurePath) : bool :=
  match lookup_node fs p with Some (File _) => true | _ => false end.

Definition is_dir (fs : gmap PurePath node) (p : PurePath) : bool :=
  match lookup_node fs p with Some Dir => true | _ => false end.

Definition ensure_dir (fs : gmap PurePath node) (q : PurePath) : gmap PurePath node :=
  match fs !! q with
  | None => <[q := Dir]> fs
  | Some _ => fs
  end.

(** [p.mkdir(exist_ok=True, parents=True)]: fails when the path or one of
    its ancestors is a file, and otherwise creates what is missing. *)
Definition mkdir_parents (fs : gmap PurePath node) (p : PurePath)
  : result (gmap PurePath node) :=
  if is_file fs p then Raise FileExistsError
  else if existsb (is_file fs) (lineage p) then Raise NotADirectoryError
  else Ok (fold_left ensure_dir (lineage p) fs).

(** [p.open("wb")]: creates or truncates the file. *)
Definition open_wb (fs : gmap PurePath node) (p : PurePath)
  : result (gmap PurePath node) :=
  if is_dir fs p then Raise IsADirectoryError
  else if is_dir fs (parent p) then Ok (<[p := File ""]> fs)
  else Raise FileNotFoundError.

(** [file.write(chunk)] on the file opened at [p] *)
Definition write_chunk (fs : gmap PurePath node) (p : PurePath) (chunk : string)
  : gmap PurePath node :=
  alter (λ n, match n with File c => File (c +:+ chunk) | Dir => Dir end) p fs.

(** [shutil.copy(src, dst)]: into the directory [dst] under the name of
    [src], or onto [dst] itself. *)
Definition shutil_copy (fs : gmap PurePath node) (src dst : PurePath)
  : result (gmap PurePath node) :=
  let target := if is_dir fs dst then join dst (name src) else dst in
  match lookup_node fs src with
  | None => Raise FileNotFoundError
  | Some Dir => Raise IsADirectoryError
  | Some (File content) =>
      if decide (target = src) then Raise SameFileError
      else match open_wb fs target with
           | Raise e => Raise e
           | Ok fs' => Ok (write_chunk fs' target content)
           end
  end.

(** [p.open()] followed by reading the whole text *)
Definition read_text (fs : gmap PurePath node) (p : PurePath) : result string :=
  match lookup_node fs p with
  | None => Raise FileNotFoundError
  | Some Dir => Raise IsADirectoryError
  | Some (File content) => Ok content
  end.

(** [parse_manifest(file_path)] *)
Definition parse_manifest (fs : gmap PurePath node) (file_path : PurePath)
  : result (gmap string (list string)) :=
  match read_text fs file_path with
  | Raise e => Raise e
  | Ok text => Ok (parse_text text)
  end.

(** ** The remote service *)

(** A decoded JSON document. A number keeps its literal. *)
#[warnings="-register-all"]
Inductive json :=
| JNull
| JBool (b : bool)
| JNum (literal : string)
| JStr (s : string)
| JArr (items : list json)
| JObj (fields : list (string * json)).

(** The [metadata] header of a response: absent, not a JSON text, or the
    document that [json.loads] returns for it. *)
Inductive header :=
| NoHeader
| BadJson
| Parsed (j : json).

(** What the service does with one request: the connection fails, or a
    response arrives with a status code, a [metadata] header and a body
    delivered in chunks; [broken] says that the stream fails after the last
    chunk listed. *)
Inductive response :=
| ConnFail
| Reply (status : Z) (metadata : header) (body : list string) (broken : bool).

Fixpoint assoc (key : string) (fields : list (string * json)) : option json :=
  match fields with
  | [] => None
  | (k, v) :: rest => if decide (k = key) then Some v else assoc key rest
  end.

(** [json.loads(response.headers.get("metadata", "{}"))] *)
Definition json_loads_header (h : header) : result json :=
  match h with
  | NoHeader => Ok (JObj [])
  | BadJson => Raise JSONDecodeError
  | Parsed j => Ok j
  end.

(** [d.get(key, default)]; only a [dict] has the method. *)
Definition dict_get (d : json) (key : string) (default : json) : result json :=
  match d with
  | JObj fields => Ok (match assoc key fields with Some v => v | None => default end)
  | _ => Raise AttributeError
  end.

(** [x[0]] *)
Definition subscript0 (x : json) : result json :=
  match x with
  | JArr (y :: _) => Ok y
  | JArr [] => Raise IndexError
  | JStr (String c _) => Ok (JStr (String c EmptyString))
  | JStr EmptyString => Raise IndexError
  | JObj _ => Raise KeyError
  | _ => Raise TypeError
  end.

(** [metadata.get("Result", {}).get("Type", [""])[0]] *)
Definition filetype_of (metadata : json) : result json :=
  match dict_get metadata "Result" (JObj []) with
  | Raise e => Raise e
  | Ok r =>
      match dict_get r "Type" (JArr [JStr ""]) with
      | Raise e => Raise e
      | Ok t => subscript0 t
      end
  end.

(** [filetype == "ZIP"] *)
Definition is_zip (filetype : json) : bool :=
  match filetype with
  | JStr s => bool_decide (s = "ZIP")
  | _ => false
  end.

(** [response.raise_for_status()] raises for the codes 400 to 599. *)
Definition http_error (status : Z) : bool := (400 <=? status) && (status <? 600).

(** ** The world *)

Inductive message :=
| MsgError (series_id : string) (e : exn)
| MsgFailed (series_id : string) (max_retries : Z)
| MsgRetrying (retry_count max_retries : Z)
| MsgParsing (manifest_path : PurePath)
| MsgDownloading (count : nat) (destination_folder : PurePath)
| MsgDone.

(** What the program does to its surroundings, in order: an existence
    check, a request, a file opened for writing (recorded once it is open),
    a chunk written, a pause, a line on the console, a job handed to the
    pool. *)
Inductive event :=
| EvExists (p : PurePath)
| EvGet (series_id : string)
| EvOpenWb (p : PurePath)
| EvWrite (p : PurePath) (chunk : string)
| EvSleep (seconds : Z)
| EvPrint (m : message)
| EvSubmit (series_id : string) (dest_file : PurePath) (max_retries : Z).

(** The file system, for each series identifier the responses the service
    will give to the coming requests (a connection failure once they are
    used up), and the events so far. *)
Record World := mkWorld {
  fs : gmap PurePath node;
  net : gmap string (list response);
  log : list event
}.

Definition emit (e : event) (w : World) : World :=
  mkWorld (fs w) (net w) (log w ++ [e]).

Definition set_fs (f : gmap PurePath node) (w : World) : World :=
  mkWorld f (net w) (log w).

Definition print (m : message) (w : World) : World := emit (EvPrint m) w.

(** [time.sleep(seconds)] *)
Definition sleep (seconds : Z) (w : World) : World := emit (EvSleep seconds) w.

(** [requests.get(URL, params={"SeriesInstanceUID": series_id}, stream=True)] *)
Definition requests_get (series_id : string) (w : World) : response * World :=
  let w' := emit (EvGet series_id) w in
  match net w !! series_id with
  | Some (r :: rest) => (r, mkWorld (fs w') (<[series_id := rest]> (net w')) (log w'))
  | _ => (ConnFail, w')
  end.

(** The loop over [response.iter_content(chunk_size=8192)] that writes the
    chunks that are not empty. *)
Fixpoint write_chunks (dest_file : PurePath) (body : list string) (w : World) : World :=
  match body with
  | [] => w
  | chunk :: rest =>
      if Py.truthy chunk then
        write_chunks dest_file rest
          (emit (EvWrite dest_file chunk)
             (set_fs (write_chunk (fs w) dest_file chunk) w))
      else write_chunks dest_file rest w
  end.

(** ** Computations in the world that may raise *)

Definition M (A : Type) : Type := World → result A * World.

Global Instance M_ret : MRet M := λ A a w, (Ok a, w).

Global Instance M_bind : MBind M := λ A B f m w,
  match m w with
  | (Ok a, w') => f a w'
  | (Raise e, w') => (Raise e, w')
  end.

Definition raise {A} (e : exn) : M A := λ w, (Raise e, w).

Definition lift {A} (r : result A) : M A := λ w, (r, w).

(** An operation that changes the world and cannot fail. *)
Definition act (f : World → World) : M unit := λ w, (Ok tt, f w).

(** An operation on the file system alone. *)
Definition on_fs (f : gmap PurePath node → result (gmap PurePath node)) : M unit :=
  λ w, match f (fs w) with
       | Ok fs' => (Ok tt, set_fs fs' w)
       | Raise e => (Raise e, w)
       end.

Fixpoint for_each {A B} (f : A → M B) (l : list A) : M (list B) :=
  match l with
  | [] => mret []
  | x :: rest => y ← f x; ys ← for_each f rest; mret (y :: ys)
  end.

(** ** The series fetcher *)

(** The [return] statement that ends a call of [download_series]: the one
    after the existence check, the one after the file is written, the one
    after the loop. The source returns [dest_file] at each of them. *)
Inductive site := AtExists | AtWritten | AfterLoop.

Global Instance site_eq_dec : EqDecision site.
Proof. solve_decision. Defined.

(** The body of the [try] statement. *)
Definition try_body (series_id : string) (dest_file : PurePath) : M site :=
  _ ← act (emit (EvExists dest_file));
  w ← (λ w, (Ok w, w));
  if path_exists (fs w) dest_file then mret AtExists
  else
    resp ← (λ w, let '(r, w') := requests_get series_id w in (Ok r, w'));
    match resp with
    | ConnFail => raise ConnectionError
    | Reply status metadata body broken =>
        _ ← (if http_error status then raise (HTTPError status) else mret tt);
        metadata ← lift (json_loads_header metadata);
        filetype ← lift (filetype_of metadata);
        if negb (is_zip filetype) then raise ValueError
        else
          _ ← on_fs (λ f, open_wb f dest_file);
          _ ← act (emit (EvOpenWb dest_file));
          _ ← act (write_chunks dest_file body);
          if broken then raise ChunkedEncodingError else mret AtWritten
    end.

(** The [while retry_count <= max_retries] loop, started at any value of
    [retry_count]. Every exception of the [try] body is caught by the
    [except Exception] clause. *)
Equations? retry_loop (series_id : string) (dest_file : PurePath)
    (max_retries retry_count : Z) (w : World)
    : result (PurePath * site) * World
    by wf (Z.to_nat (max_retries + 1 - retry_count)) lt :=
  retry_loop series_id dest_file max_retries retry_count w
    with Z_le_gt_dec retry_count max_retries := {
    | right _ := (Ok (dest_file, AfterLoop), w);
    | left _ with try_body series_id dest_file w := {
        | (Ok s, w1) := (Ok (dest_file, s), w1);
        | (Raise e, w1) with Z_gt_le_dec (retry_count + 1) max_retries := {
            | left _ :=
                (Ok (dest_file, AfterLoop),
                 print (MsgFailed series_id max_retries)
                   (print (MsgError series_id e) w1));
            | right _ :=
                retry_loop series_id dest_file max_retries (retry_count + 1)
                  (sleep 1
                     (print (MsgRetrying (retry_count + 1) max_retries)
                        (print (MsgError series_id e) w1))) } } }.
Proof. lia. Qed.

(** [download_series(series_id, dest_file, max_retries)]; the result also
    tells which [return] was taken. *)
Definition download_series (series_id : string) (dest_file : PurePath)
    (max_retries : Z) : M (PurePath * site) :=
  retry_loop series_id dest_file max_retries 0.

(** ** The orchestrator *)

(** The value of [manifest_data.get('noOfrRetry', 0)]: the list registered
    for the key, or the integer default. *)
Inductive pyval :=
| PyInt (z : Z)
| PyList (l : list string).

Definition get_retry_entry (manifest_data : gmap string (list string)) : pyval :=
  match manifest_data !! "noOfrRetry" with
  | Some l => PyList l
  | None => PyInt 0
  end.

(** [v[0]]: an [int] has no subscript. *)
Definition first_item (v : pyval) : result string :=
  match v with
  | PyInt _ => Raise TypeError
  | PyList [] => Raise IndexError
  | PyList (x :: _) => Ok x
  end.

Definition digit_of (c : ascii) : option Z :=
  let n := Z.of_N (N_of_ascii c) in
  if (48 <=? n) && (n <=? 57) then Some (n - 48) else None.

(** Decimal digits with single underscores between them. *)
Fixpoint digits_value (acc : Z) (after_digit : bool) (s : string) : option Z :=
  match s with
  | EmptyString => if after_digit then Some acc else None
  | String c rest =>
      match digit_of c with
      | Some d => digits_value (10 * acc + d) true rest
      | None =>
          if bool_decide (c = "_"%char) && after_digit then
            match rest with
            | EmptyString => None
            | _ => digits_value acc false rest
            end
          else None
      end
  end.

(** [int(s)] for a string: blanks around, a sign, decimal digits. (The
    limit that recent interpreters put on the number of digits is left
    out.) *)
Definition py_int (s : string) : result Z :=
  let s := Py.strip s in
  let '(negative, body) :=
    match s with
    | String c rest =>
        if bool_decide (c = "-"%char) then (true, rest)
        else if bool_decide (c = "+"%char) then (false, rest)
        else (false, s)
    | EmptyString => (false, s)
    end in
  match digits_value 0 false body with
  | Some v => Ok (if negative then - v else v)
  | None => Raise ValueError
  end.

(** The destination of the job for one series. *)
Definition job_dest (destination_folder : PurePath) (series_id : string) : PurePath :=
  join destination_folder (series_id +:+ ".zip").

(** [download_from_manifest(manifest_path, output_base_path, njobs)]. The
    pool runs the jobs one after the other in the order of submission, as a
    pool of one worker does. The result lists, per job, what
    [future.result()] gives (with the [return] taken); the source returns
    [None]. *)
Definition download_from_manifest (manifest_path output_base_path : string)
    (njobs : Z) : M (list (PurePath * site)) :=
  let manifest_path := path_of_string manifest_path in
  let destination_folder := join (path_of_string output_base_path) (name manifest_path) in
  _ ← on_fs (λ f, mkdir_parents f destination_folder);
  w ← (λ w, (Ok w, w));
  if negb (is_file (fs w) manifest_path) then raise ValueError
  else
    _ ← on_fs (λ f, shutil_copy f manifest_path destination_folder);
    _ ← act (print (MsgParsing manifest_path));
    w ← (λ w, (Ok w, w));
    manifest_data ← lift (parse_manifest (fs w) manifest_path);
    let series_ids_to_download := default [] (manifest_data !! "ListOfSeriesToDownload") in
    item ← lift (first_item (get_retry_entry manifest_data));
    no_of_retries ← lift (py_int item);
    _ ← act (print (MsgDownloading (length series_ids_to_download) destination_folder));
    _ ← (if njobs <=? 0 then raise ValueError else mret tt);
    _ ← for_each (λ series_id,
           act (emit (EvSubmit series_id (job_dest destination_folder series_id)
                        no_of_retries)))
         series_ids_to_download;
    results ← for_each (λ series_id,
           download_series series_id (job_dest destination_folder series_id)
             no_of_retries)
         series_ids_to_download;
    _ ← act (print MsgDone);
    mret results.

(** ** The accumulation rule as the specification words it *)

(** The state of the rule: the mapping and the key that is active, if any. *)
Definition rule_state : Type := gmap string (list string) * option string.

(** A line with [=] is split at the first one and registers its key, with
    the trimmed value alone when that is not empty and with nothing
    otherwise; any other line that is not empty is appended to the sequence
    of the active key. (The specification does not say whether blanks around
    the key are kept; they are trimmed as in the source.) *)
Definition rule_step (st : rule_state) (raw : string) : rule_state :=
  let line := Py.strip raw in
  if Py.contains "=" line then
    let '(k, _, v) := Py.partition "=" line in
    let k := Py.strip k in
    let v := Py.strip v in
    (<[k := if bool_decide (v = "") then [] else [v]]> st.1, Some k)
  else
    match st.2 with
    | Some k =>
        if bool_decide (line = "") then st
        else (<[k := default [] (st.1 !! k) ++ [line]]> st.1, Some k)
    | None => st
    end.

Definition rule_parse (text : string) : gmap string (list string) :=
  (fold_left rule_step (Py.file_lines text) (∅, None)).1.

(** The same rule where a key that is empty after trimming is registered
    but does not become active. *)
Definition rule_step_nonempty (st : rule_state) (raw : string) : rule_state :=
  let line := Py.strip raw in
  if Py.contains "=" line then
    let '(k, _, v) := Py.partition "=" line in
    let k := Py.strip k in
    let v := Py.strip v in
    (<[k := if bool_decide (v = "") then [] else [v]]> st.1,
     if bool_decide (k = "") then None else Some k)
  else
    match st.2 with
    | Some k =>
        if bool_decide (line = "") then st
        else (<[k := default [] (st.1 !! k) ++ [line]]> st.1, Some k)
    | None => st
    end.

Definition rule_parse_nonempty (text : string) : gmap string (list string) :=
  (fold_left rule_step_nonempty (Py.file_lines text) (∅, None)).1.

(** ** Vocabulary of the statements *)

(** The key that a raw line registers, when its trimmed form has an [=]. *)
Definition line_key (raw : string) : option string :=
  let line := Py.strip raw in
  if Py.contains "=" line then Some (Py.strip (Py.partition "=" line).1.1)
  else None.

(** The key in [current_key] has an entry, so the [append] of the source
    never meets a missing key. *)
Definition key_registered (st : pstate) : Prop :=
  ∀ k, current_key st = Some k → is_Some (manifest_data st !! k).

(** How a state of the source is seen by the rule: the same mapping, and
    the key is active when it is true as a Python value. *)
Definition as_rule_state (st : pstate) : rule_state :=
  (manifest_data st,
   if key_truthy (current_key st) then current_key st else None).

(** The [except] clause for the exception [e] raised in the turn that
    started with [retry_count], and what follows it: the end of the loop, or
    the pause and the next turn. *)
Definition except_clause (series_id : string) (dest_file : PurePath)
    (max_retries retry_count : Z) (e : exn) (w1 : World)
    : result (PurePath * site) * World :=
  let w2 := print (MsgError series_id e) w1 in
  if decide (retry_count + 1 > max_retries) then
    (Ok (dest_file, AfterLoop), print (MsgFailed series_id max_retries) w2)
  else
    retry_loop series_id dest_file max_retries (retry_count + 1)
      (sleep 1 (print (MsgRetrying (retry_count + 1) max_retries) w2)).

(** A response with which the [try] body raises before it opens the file. *)
Definition early_failure (r : response) : bool :=
  match r with
  | ConnFail => true
  | Reply status metadata _ _ =>
      http_error status ||
      match json_loads_header metadata with
      | Raise _ => true
      | Ok metadata =>
          match filetype_of metadata with
          | Raise _ => true
          | Ok filetype => negb (is_zip filetype)
          end
      end
  end.

(** Every attempt of a fetch in this world raises without opening the
    file: the file cannot be opened, or every response still to come for the
    series is an early failure. *)
Definition doomed (series_id : string) (dest_file : PurePath) (w : World) : Prop :=
  is_ok (open_wb (fs w) dest_file) = false
  ∨ ∀ rs, net w !! series_id = Some rs → Forall (λ r, early_failure r = true) rs.

(** The requests and the pauses among the events. *)
Fixpoint timeline (evs : list event) : list event :=
  match evs with
  | [] => []
  | EvGet s :: rest => EvGet s :: timeline rest
  | EvSleep n :: rest => EvSleep n :: timeline rest
  | _ :: rest => timeline rest
  end.

(** [n] requests for a series with a pause of one second between each two. *)
Fixpoint spaced_requests (series_id : string) (n : nat) : list event :=
  match n with
  | O => []
  | S n' =>
      EvGet series_id ::
      match n' with
      | O => []
      | S _ => EvSleep 1 :: spaced_requests series_id n'
      end
  end.

Definition is_get (e : event) : bool :=
  match e with EvGet _ => true | _ => false end.

Definition is_sleep (e : event) : bool :=
  match e with EvSleep _ => true | _ => false end.

(** From world [w] to world [w']: what a path named stays as it was, events
    were only added, and every path that names something new was opened for
    writing on the way. *)
Definition grows (w w' : World) : Prop :=
  (∀ q n, fs w !! q = Some n → fs w' !! q = Some n)
  ∧ ∃ evs, log w' = log w ++ evs
           ∧ ∀ q, fs w !! q = None → is_Some (fs w' !! q) → EvOpenWb q ∈ evs.

(** A string that is empty or starts with a character that is not blank. *)
Definition head_ok (s : string) : bool :=
  match s with
  | EmptyString => true
  | String c _ => negb (Py.isspace c)
  end.

(** The list that a raw line with [=] assigns to its key. *)
Definition line_values (raw : string) : list string :=
  let '(_, _, value) := Py.partition "=" (Py.strip raw) in
  if Py.truthy value then [Py.strip value] else [].

(** Every value stored in the mapping is a trimmed string that is not
    empty. *)
Definition values_clean (m : gmap string (list string)) : Prop :=
  ∀ k vs v, m !! k = Some vs → v ∈ vs → v ≠ "" ∧ Py.strip v = v.

(** Every key of the mapping is trimmed and has no [=]. *)
Definition keys_clean (m : gmap string (list string)) : Prop :=
  ∀ k, is_Some (m !! k) → Py.strip k = k ∧ Py.contains "=" k = false.

(** The events that a fetch of [series_id] to [dest_file] with
    [max_retries] may produce. *)
Definition fetch_event (series_id : string) (dest_file : PurePath)
    (max_retries : Z) (e : event) : Prop :=
  match e with
  | EvExists q => q = dest_file
  | EvGet s => s = series_id
  | EvOpenWb q => q = dest_file
  | EvWrite q _ => q = dest_file
  | EvSleep n => n = 1
  | EvPrint (MsgError s _) => s = series_id
  | EvPrint (MsgFailed s m) => s = series_id ∧ m = max_retries
  | EvPrint (MsgRetrying n m) => 1 ≤ n ≤ m ∧ m = max_retries
  | _ => False
  end.

(** The chunks of a body put end to end. *)
Definition joined (body : list string) : string :=
  foldr String.append "" body.


(** An event of the orchestrator itself: a line on the console or a job
    handed to the pool. *)
Definition is_own (e : event) : bool :=
  match e with EvPrint _ | EvSubmit _ _ _ => true | _ => false end.

(** What two runs have in common when they end alike: the same exception,
    or the same destinations in the same order. *)
Definition same_outcome (r1 r2 : result (list (PurePath * site))) : Prop :=
  match r1, r2 with
  | Ok l1, Ok l2 => map fst l1 = map fst l2
  | Raise e1, Raise e2 => e1 = e2
  | _, _ => False
  end.

(** * Properties *)

(** ** Trimming *)

Section Trimming.
Import Py.

Lemma rstrip_blank s : all_space s = true → rstrip s = "".
Proof.
  induction s as [|c s IH]; simpl; [done|].
  intros [Hc Hs]%andb_prop. by rewrite (IH Hs), Hc.
Qed.

Lemma rstrip_empty_blank s : rstrip s = "" → all_space s = true.
Proof.
  induction s as [|c s IH]; simpl; [done|].
  destruct (rstrip s) eqn:Hr; [|done].
  destruct (isspace c); [|done]. intros _. by rewrite IH.
Qed.

Lemma lstrip_all_space s : all_space (lstrip s) = all_space s.
Proof.
  induction s as [|c s IH]; simpl; [done|].
  destruct (isspace c) eqn:Hc; simpl; [done|]. by rewrite Hc.
Qed.

Lemma strip_empty_iff s : strip s = "" ↔ all_space s = true.
Proof.
  unfold strip. split.
  - intros H%rstrip_empty_blank. by rewrite lstrip_all_space in H.
  - intros H. apply rstrip_blank. by rewrite lstrip_all_space.
Qed.

Lemma rstrip_idem s : rstrip (rstrip s) = rstrip s.
Proof.
  induction s as [|c s IH]; simpl; [done|].
  destruct (rstrip s) as [|a r] eqn:Hr.
  - destruct (isspace c) eqn:Hc; simpl; [done|]. by rewrite Hc.
  - change (rstrip (String c (String a r))) with
      (match rstrip (String a r) with
       | EmptyString => if isspace c then EmptyString else String c EmptyString
       | String x y => String c (String x y)
       end).
    by rewrite IH.
Qed.

Lemma rstrip_strip s : rstrip (strip s) = strip s.
Proof. apply rstrip_idem. Qed.

Lemma rstrip_fixed_tail c s : rstrip (String c s) = String c s → rstrip s = s.
Proof.
  simpl. destruct (rstrip s) as [|a r] eqn:Hr.
  - destruct (isspace c); [done|]. by intros [= <-].
  - by intros [= <-].
Qed.

Lemma rstrip_fixed_not_blank s :
  rstrip s = s → truthy s = true → all_space s = false.
Proof.
  intros Hs Ht. destruct (all_space s) eqn:Hb; [|done].
  apply rstrip_blank in Hb. rewrite Hs in Hb. by subst.
Qed.

(** In a line without blanks at its end, what follows the first [c] is
    empty or has a character that is not blank. *)
Lemma partition_tail_not_blank c s h sep t :
  partition c s = (h, sep, t) → rstrip s = s → truthy t = true →
  all_space t = false.
Proof.
  revert h. induction s as [|d s IH]; intros h; simpl partition.
  - by intros [= <- <- <-].
  - intros Hp Hfix Ht. pose proof (rstrip_fixed_tail _ _ Hfix) as Hs.
    destruct (decide (c = d)).
    + injection Hp as <- <- <-. by apply rstrip_fixed_not_blank.
    + destruct (partition c s) as [[h' sep'] t'] eqn:Hp'.
      injection Hp as <- <- <-. by eapply IH.
Qed.

(** The test [if value] of the source and the test on the trimmed value
    agree on a trimmed line. *)
Lemma value_truthy_trimmed raw k sep v :
  partition "=" (strip raw) = (k, sep, v) →
  truthy v = negb (bool_decide (strip v = "")).
Proof.
  intros Hp. destruct (truthy v) eqn:Hv.
  - pose proof (partition_tail_not_blank _ _ _ _ _ Hp (rstrip_strip raw) Hv) as Hb.
    rewrite bool_decide_eq_false_2; [done|].
    rewrite strip_empty_iff. by rewrite Hb.
  - destruct v; [|done]. done.
Qed.

Lemma truthy_empty s : truthy s = negb (bool_decide (s = "")).
Proof. by destruct s. Qed.

End Trimming.

(** ** The manifest parser *)

Section Parser.

Lemma parse_lines_app pre post :
  parse_lines (pre ++ post) = parse_lines_from (parse_lines pre) post.
Proof. unfold parse_lines, parse_lines_from. apply fold_left_app. Qed.

Lemma parse_line_registered st raw :
  key_registered st → key_registered (parse_line st raw).
Proof.
  intros Hst. unfold parse_line.
  destruct (Py.contains "=" (Py.strip raw)).
  - destruct (Py.partition "=" (Py.strip raw)) as [[k sep] v].
    intros k' [= <-]; simpl. rewrite lookup_insert_eq. eauto.
  - destruct (key_truthy (current_key st) && Py.truthy (Py.strip raw)); [|done].
    destruct (current_key st) as [k|] eqn:Hk; [|done].
    intros k' [= <-]; simpl. rewrite lookup_alter_eq.
    destruct (Hst k Hk) as [vs ->]. eauto.
Qed.

Lemma current_key_registered lines : key_registered (parse_lines lines).
Proof.
  unfold parse_lines, parse_lines_from.
  assert (key_registered pstate_init) as H0 by (by intros k).
  revert H0. generalize pstate_init.
  induction lines as [|l lines IH]; intros st Hst; simpl; [done|].
  apply IH. by apply parse_line_registered.
Qed.

Lemma parse_line_rule st raw :
  key_registered st →
  as_rule_state (parse_line st raw) = rule_step_nonempty (as_rule_state st) raw.
Proof.
  intros Hst. unfold parse_line, rule_step_nonempty, as_rule_state. simpl.
  destruct (Py.contains "=" (Py.strip raw)).
  - destruct (Py.partition "=" (Py.strip raw)) as [[k sep] v] eqn:Hp.
    simpl. rewrite (value_truthy_trimmed _ _ _ _ Hp), truthy_empty.
    by destruct (bool_decide (Py.strip v = "")), (bool_decide (Py.strip k = "")).
  - destruct (current_key st) as [k|] eqn:Hk; simpl; [|by rewrite Hk].
    destruct (Py.truthy k) eqn:Hkt; simpl; [|by rewrite Hk; simpl; rewrite Hkt].
    rewrite truthy_empty. case_bool_decide; simpl;
      [by rewrite Hk; simpl; rewrite Hkt|].
    rewrite Hkt. f_equal.
    destruct (Hst k Hk) as [vs Hvs]. rewrite Hvs. simpl.
    apply map_eq. intros j. rewrite lookup_alter, lookup_insert.
    case_decide; subst; [by rewrite Hvs|done].
Qed.

Lemma parse_lines_rule lines :
  as_rule_state (parse_lines lines)
  = fold_left rule_step_nonempty lines (∅, None).
Proof.
  unfold parse_lines, parse_lines_from.
  change (∅, None) with (as_rule_state pstate_init).
  assert (key_registered pstate_init) as H0 by (by intros k).
  revert H0. generalize pstate_init.
  induction lines as [|l lines IH]; intros st Hst; simpl; [done|].
  rewrite IH by (by apply parse_line_registered).
  by rewrite parse_line_rule.
Qed.




End Parser.

(** C3 (as stated, refuted). The source and the accumulation rule of the
    specification differ on the text made of the line [=V] followed by the
    line [A]: the rule appends [A] to the entry of the empty key, the source
    registers the empty key and then drops [A]. *)
Lemma C3_empty_key_counterexample :
  parse_text "=V
A" = {[ "" := ["V"] ]}
  ∧ rule_parse "=V
A" = {[ "" := ["V"; "A"] ]}
  ∧ parse_text "=V
A" ≠ rule_parse "=V
A".
Proof.
  assert (parse_text "=V
A" = {[ "" := ["V"] ]}) as H1 by (by vm_compute).
  assert (rule_parse "=V
A" = {[ "" := ["V"; "A"] ]}) as H2 by (by vm_compute).
  split; [done|]. split; [done|].
  rewrite H1, H2. intros H.
  assert (({[ "" := ["V"] ]} : gmap string (list string)) !! ""
          = ({[ "" := ["V"; "A"] ]} : gmap string (list string)) !! "") as Hl
    by (by rewrite H).
  by rewrite !lookup_singleton_eq in Hl.
Qed.

(** C3 (amended). For every text the source computes the accumulation rule
    in which a line with [=] is split at its first [=], the trimmed key is
    registered with the trimmed value alone when that is not empty and with
    nothing otherwise, every later line that is not empty and has no [=] is
    appended to the sequence of the active key, and a key becomes active
    only when it is not empty; lines before any active key are dropped. In
    particular [KEY=V1], [A], [B] gives [KEY → [V1; A; B]] and [KEY=], [A]
    gives [KEY → [A]]. *)
Theorem C3_parse_follows_rule :
  (∀ text, parse_text text = rule_parse_nonempty text)
  ∧ parse_text "KEY=V1
A
B" = {[ "KEY" := ["V1"; "A"; "B"] ]}
  ∧ parse_text "KEY=
A" = {[ "KEY" := ["A"] ]}
  ∧ parse_text "dropped
KEY=V1
A" = {[ "KEY" := ["V1"; "A"] ]}.
Proof.
  split; [|by vm_compute].
  intros text. unfold parse_text, rule_parse_nonempty.
  by rewrite <- parse_lines_rule.
Qed.



(** ** One attempt *)

Section Attempt.
Context (series_id : string) (dest_file : PurePath).

(** The [try] body with the threading of the world written out. *)
Lemma try_body_unfold w :
  try_body series_id dest_file w =
  let w0 := emit (EvExists dest_file) w in
  if path_exists (fs w) dest_file then (Ok AtExists, w0)
  else
    let '(resp, w1) := requests_get series_id w0 in
    match resp with
    | ConnFail => (Raise ConnectionError, w1)
    | Reply status metadata body broken =>
        if http_error status then (Raise (HTTPError status), w1)
        else match json_loads_header metadata with
             | Raise e => (Raise e, w1)
             | Ok metadata =>
                 match filetype_of metadata with
                 | Raise e => (Raise e, w1)
                 | Ok filetype =>
                     if is_zip filetype then
                       match open_wb (fs w1) dest_file with
                       | Raise e => (Raise e, w1)
                       | Ok f =>
                           let w2 := write_chunks dest_file body
                                       (emit (EvOpenWb dest_file) (set_fs f w1)) in
                           if broken then (Raise ChunkedEncodingError, w2)
                           else (Ok AtWritten, w2)
                       end
                     else (Raise ValueError, w1)
                 end
             end
    end.
Proof.
  unfold try_body, mbind, M_bind, mret, M_ret, act, lift, raise, on_fs. simpl.
  destruct (path_exists (fs w) dest_file); [done|].
  destruct (requests_get series_id (emit (EvExists dest_file) w)) as [[|st md body br] w1];
    [done|].
  destruct (http_error st); [done|].
  destruct (json_loads_header md) as [m|e]; [|done].
  destruct (filetype_of m) as [ft|e]; [|done].
  destruct (is_zip ft); simpl; [|done].
  destruct (open_wb (fs w1) dest_file) as [f|e]; [|done].
  by destruct br.
Qed.

(** A request leaves the file system alone and appends its event. *)
Lemma requests_get_spec w r w1 :
  requests_get series_id w = (r, w1) →
  fs w1 = fs w ∧ log w1 = log w ++ [EvGet series_id]
  ∧ match net w !! series_id with
    | Some (r' :: rest) => r = r' ∧ net w1 = <[series_id := rest]> (net w)
    | _ => r = ConnFail ∧ net w1 = net w
    end.
Proof.
  unfold requests_get.
  destruct (net w !! series_id) as [[|r' rest]|]; intros [= <- <-]; by simpl.
Qed.

Lemma write_chunks_other body w q :
  q ≠ dest_file → fs (write_chunks dest_file body w) !! q = fs w !! q.
Proof.
  revert w. induction body as [|c body IH]; intros w Hq; simpl; [done|].
  destruct (Py.truthy c); [|by apply IH].
  rewrite IH by done. simpl. unfold write_chunk. by rewrite lookup_alter_ne.
Qed.

Lemma write_chunks_file body w c :
  fs w !! dest_file = Some (File c) →
  ∃ c', fs (write_chunks dest_file body w) !! dest_file = Some (File c').
Proof.
  revert w c. induction body as [|ch body IH]; intros w c Hc; simpl; [eauto|].
  destruct (Py.truthy ch); [|by eapply IH].
  eapply IH. simpl. unfold write_chunk. rewrite lookup_alter_eq, Hc. done.
Qed.

Lemma write_chunks_net body w : net (write_chunks dest_file body w) = net w.
Proof.
  revert w. induction body as [|c body IH]; intros w; simpl; [done|].
  destruct (Py.truthy c); by rewrite IH.
Qed.

(** The events of the writing loop are writes to the destination. *)
Lemma write_chunks_log body w :
  ∃ evs, log (write_chunks dest_file body w) = log w ++ evs
         ∧ Forall (λ e, ∃ c, e = EvWrite dest_file c) evs.
Proof.
  revert w. induction body as [|c body IH]; intros w; simpl.
  - exists []. by rewrite app_nil_r.
  - destruct (Py.truthy c); [|apply IH].
    destruct (IH (emit (EvWrite dest_file c)
                    (set_fs (write_chunk (fs w) dest_file c) w))) as (evs & -> & Hevs).
    exists (EvWrite dest_file c :: evs). simpl. rewrite <- app_assoc. split; [done|].
    constructor; eauto.
Qed.

End Attempt.

(** ** The retry loop *)

Section Fetcher.
Context (series_id : string) (dest_file : PurePath) (max_retries : Z).

(** One turn of the [while] loop. *)
Lemma retry_loop_turn retry_count w :
  retry_loop series_id dest_file max_retries retry_count w =
  if decide (retry_count ≤ max_retries) then
    match try_body series_id dest_file w with
    | (Ok s, w1) => (Ok (dest_file, s), w1)
    | (Raise e, w1) => except_clause series_id dest_file max_retries retry_count e w1
    end
  else (Ok (dest_file, AfterLoop), w).
Proof.
  unfold except_clause. simp retry_loop.
  destruct (Z_le_gt_dec retry_count max_retries) as [Hle|Hgt]; simpl.
  - rewrite decide_True by done.
    destruct (try_body series_id dest_file w) as [[s|e] w1]; simpl; [done|].
    destruct (Z_gt_le_dec (retry_count + 1) max_retries); simpl.
    + by rewrite decide_True.
    + by rewrite decide_False by lia.
  - by rewrite decide_False by lia.
Qed.

(** Induction over the turns of the loop. *)
Lemma retry_loop_turns (P : Z → World → result (PurePath * site) * World → Prop) :
  (∀ rc w, rc > max_retries → P rc w (Ok (dest_file, AfterLoop), w)) →
  (∀ rc w s w1, rc ≤ max_retries →
     try_body series_id dest_file w = (Ok s, w1) →
     P rc w (Ok (dest_file, s), w1)) →
  (∀ rc w e w1, rc ≤ max_retries →
     try_body series_id dest_file w = (Raise e, w1) →
     rc + 1 > max_retries →
     P rc w (Ok (dest_file, AfterLoop),
             print (MsgFailed series_id max_retries)
               (print (MsgError series_id e) w1))) →
  (∀ rc w e w1 r, rc ≤ max_retries →
     try_body series_id dest_file w = (Raise e, w1) →
     rc + 1 ≤ max_retries →
     P (rc + 1)
       (sleep 1 (print (MsgRetrying (rc + 1) max_retries)
                   (print (MsgError series_id e) w1))) r →
     P rc w r) →
  ∀ rc w, P rc w (retry_loop series_id dest_file max_retries rc w).
Proof.
  intros Hend Hret Hbreak Hnext rc w.
  remember (Z.to_nat (max_retries + 1 - rc)) as n eqn:Hn.
  revert rc w Hn. induction n as [|n IH]; intros rc w Hn;
    rewrite retry_loop_turn; case_decide; try lia; try (by apply Hend; lia).
  destruct (try_body series_id dest_file w) as [[s|e] w1] eqn:Htry.
  - by apply Hret.
  - unfold except_clause. case_decide.
    + by apply Hbreak.
    + eapply Hnext; [done..|lia|]. apply IH. lia.
Qed.

Lemma try_body_exists w :
  path_exists (fs w) dest_file = true →
  try_body series_id dest_file w = (Ok AtExists, emit (EvExists dest_file) w).
Proof. intros H. rewrite try_body_unfold. simpl. by rewrite H. Qed.

(** A [try] body that returns has found the file or has written it. *)
Lemma try_body_returns w s w1 :
  try_body series_id dest_file w = (Ok s, w1) →
  path_exists (fs w1) dest_file = true.
Proof.
  rewrite try_body_unfold. simpl.
  destruct (path_exists (fs w) dest_file) eqn:Hex; [by intros [= <- <-]|].
  destruct (requests_get _ _) as [[|st md body br] w0]; [done|].
  destruct (http_error st); [done|].
  destruct (json_loads_header md) as [m|]; [|done].
  destruct (filetype_of m) as [ft|]; [|done].
  destruct (is_zip ft); [|done].
  destruct (open_wb (fs w0) dest_file) as [f|] eqn:Hopen; [|done].
  destruct br; [done|]. intros [= <- <-].
  unfold open_wb in Hopen.
  destruct (is_dir (fs w0) dest_file) eqn:Hd; [done|].
  destruct (is_dir (fs w0) (parent dest_file)); [|done].
  injection Hopen as <-.
  destruct (write_chunks_file dest_file body
              (emit (EvOpenWb dest_file)
                 (set_fs (<[dest_file := File ""]> (fs w0)) w0)) "") as [c Hc].
  { simpl. by rewrite lookup_insert_eq. }
  unfold path_exists, lookup_node. destruct (parts dest_file); [done|].
  by rewrite Hc.
Qed.

Lemma doomed_same w w' :
  fs w' = fs w → net w' = net w →
  doomed series_id dest_file w → doomed series_id dest_file w'.
Proof. unfold doomed. by intros -> ->. Qed.

(** A doomed attempt raises, having made one request and changed no
    file, and leaves the fetch doomed. *)
Lemma try_body_doomed w :
  path_exists (fs w) dest_file = false →
  doomed series_id dest_file w →
  ∃ e w1, try_body series_id dest_file w = (Raise e, w1)
          ∧ fs w1 = fs w
          ∧ log w1 = log w ++ [EvExists dest_file; EvGet series_id]
          ∧ doomed series_id dest_file w1.
Proof.
  intros Hex Hd. rewrite try_body_unfold. simpl. rewrite Hex.
  destruct (requests_get series_id (emit (EvExists dest_file) w)) as [r w0] eqn:Hget.
  apply requests_get_spec in Hget as (Hfs & Hlog & Hnet). simpl in *.
  assert (log w0 = log w ++ [EvExists dest_file; EvGet series_id]) as Hlog'
    by (by rewrite Hlog, <- app_assoc).
  assert (early_failure r = true ∨ is_ok (open_wb (fs w0) dest_file) = false) as Hr.
  { destruct Hd as [Hd|Hd]; [right; by rewrite Hfs|]. left.
    destruct (net w !! series_id) as [[|r' rest]|] eqn:Hq; try by destruct Hnet as [-> _].
    destruct Hnet as [-> _]. specialize (Hd _ eq_refl). by inversion Hd. }
  assert (doomed series_id dest_file w0) as Hd0.
  { destruct Hd as [Hd|Hd]; [left; by rewrite Hfs|]. right. intros rs.
    destruct (net w !! series_id) as [[|r' rest]|] eqn:Hq.
    - destruct Hnet as [_ ->]. rewrite Hq. by intros [= <-].
    - destruct Hnet as [_ ->]. rewrite lookup_insert_eq. intros [= <-].
      specialize (Hd _ eq_refl). by inversion Hd.
    - destruct Hnet as [_ ->]. by rewrite Hq. }
  destruct r as [|st md body br]; [by eauto 10|]. simpl in Hr.
  destruct (http_error st); [by eauto 10|].
  destruct (json_loads_header md) as [m|]; [|by eauto 10].
  destruct (filetype_of m) as [ft|]; [|by eauto 10].
  destruct (is_zip ft); [|by eauto 10].
  destruct Hr as [Hr|Hr]; [done|].
  destruct (open_wb (fs w0) dest_file); [done|by eauto 10].
Qed.

(** The loop never raises and returns the destination. *)
Lemma retry_loop_returns rc w :
  ∃ s w', retry_loop series_id dest_file max_retries rc w = (Ok (dest_file, s), w').
Proof.
  apply (retry_loop_turns (λ _ _ r, ∃ s w', r = (Ok (dest_file, s), w'))); eauto.
Qed.

(** A return from inside the [try] body leaves the file in place. *)
Lemma retry_loop_present rc w s w' :
  retry_loop series_id dest_file max_retries rc w = (Ok (dest_file, s), w') →
  s ≠ AfterLoop → path_exists (fs w') dest_file = true.
Proof.
  revert s w'.
  apply (retry_loop_turns (λ _ _ r, ∀ s w', r = (Ok (dest_file, s), w') →
           s ≠ AfterLoop → path_exists (fs w') dest_file = true)).
  - by intros ????? [= <- <-].
  - intros rc' w0 s w1 _ Htry s' w'' [= <- <-] _. by eapply try_body_returns.
  - by intros ????????? [= <- <-].
  - eauto.
Qed.

Lemma timeline_app evs1 evs2 :
  timeline (evs1 ++ evs2) = timeline evs1 ++ timeline evs2.
Proof.
  induction evs1 as [|e evs1 IH]; simpl; [done|].
  destruct e; simpl; by rewrite ?IH.
Qed.

(** A doomed fetch with [S n] turns left makes [S n] requests spaced by
    pauses and changes no file. *)
Lemma retry_loop_doomed n : ∀ rc w,
  Z.to_nat (max_retries + 1 - rc) = S n →
  path_exists (fs w) dest_file = false →
  doomed series_id dest_file w →
  ∃ w' evs,
    retry_loop series_id dest_file max_retries rc w = (Ok (dest_file, AfterLoop), w')
    ∧ log w' = log w ++ evs
    ∧ timeline evs = spaced_requests series_id (S n)
    ∧ fs w' = fs w.
Proof.
  induction n as [|n IH]; intros rc w Hn Hex Hd;
    rewrite retry_loop_turn; (rewrite decide_True by lia);
    destruct (try_body_doomed w Hex Hd) as (e & w1 & -> & Hfs & Hlog & Hd1);
    unfold except_clause.
  - rewrite decide_True by lia. eexists _, _. split; [done|].
    simpl. rewrite Hlog, <- !app_assoc. simpl. split; [done|]. by split.
  - rewrite decide_False by lia.
    set (w3 := sleep 1 (print (MsgRetrying (rc + 1) max_retries)
                          (print (MsgError series_id e) w1))).
    destruct (IH (rc + 1) w3) as (w' & evs & -> & Hlog' & Htl & Hfs').
    { lia. } { simpl. by rewrite Hfs. } { by apply (doomed_same w1). }
    eexists w', _. split; [done|]. rewrite Hlog'. simpl. rewrite Hlog, <- !app_assoc.
    split; [done|]. simpl. rewrite Htl. split; [done|]. by rewrite Hfs'.
Qed.

End Fetcher.

Lemma filter_get_timeline evs :
  List.filter is_get (timeline evs) = List.filter is_get evs.
Proof.
  induction evs as [|e evs IH]; simpl; [done|].
  destruct e; simpl; by rewrite ?IH.
Qed.

Lemma filter_sleep_timeline evs :
  List.filter is_sleep (timeline evs) = List.filter is_sleep evs.
Proof.
  induction evs as [|e evs IH]; simpl; [done|].
  destruct e; simpl; by rewrite ?IH.
Qed.

Lemma spaced_requests_counts series_id n :
  length (List.filter is_get (spaced_requests series_id (S n))) = S n
  ∧ length (List.filter is_sleep (spaced_requests series_id (S n))) = n.
Proof.
  induction n as [|n [IH1 IH2]]; [done|].
  change (spaced_requests series_id (S (S n)))
    with (EvGet series_id :: EvSleep 1 :: spaced_requests series_id (S n)).
  generalize dependent (spaced_requests series_id (S n)). intros l IH1 IH2.
  simpl. by rewrite IH1, IH2.
Qed.

(** C4. With [max_retries = N ≥ 0] and a fetch whose every attempt raises
    before the destination file is open, [download_series] makes exactly
    [N + 1] requests with a pause of one second between each two ([N]
    pauses), changes no file, and returns with no file at the destination. *)
Theorem C4_retry_bound series_id dest_file N w :
  0 ≤ N →
  path_exists (fs w) dest_file = false →
  doomed series_id dest_file w →
  ∃ w' evs,
    download_series series_id dest_file N w = (Ok (dest_file, AfterLoop), w')
    ∧ log w' = log w ++ evs
    ∧ timeline evs = spaced_requests series_id (Z.to_nat (N + 1))
    ∧ length (List.filter is_get evs) = Z.to_nat (N + 1)
    ∧ length (List.filter is_sleep evs) = Z.to_nat N
    ∧ fs w' = fs w
    ∧ path_exists (fs w') dest_file = false.
Proof.
  intros HN Hex Hd. unfold download_series.
  destruct (retry_loop_doomed series_id dest_file N (Z.to_nat N) 0 w)
    as (w' & evs & Hrun & Hlog & Htl & Hfs); [lia|done..|].
  replace (Z.to_nat (N + 1)) with (S (Z.to_nat N)) by lia.
  exists w', evs. split; [done|]. split; [done|]. split; [done|].
  rewrite <- filter_get_timeline, <- filter_sleep_timeline, Htl.
  destruct (spaced_requests_counts series_id (Z.to_nat N)) as [-> ->].
  by rewrite Hfs.
Qed.

Lemma C4_retry_bound_witness :
  let bad := Parsed (JObj [("Result", JObj [("Type", JArr [JStr "HTML"])])]) in
  let dest := Path false ["out"; "4.5.6.zip"] in
  let w := mkWorld ∅ {[ "4.5.6" := [Reply 200 bad ["x"] false; Reply 503 NoHeader [] false] ]} [] in
  ∃ w' evs,
    download_series "4.5.6" dest 2 w = (Ok (dest, AfterLoop), w')
    ∧ log w' = log w ++ evs
    ∧ timeline evs = spaced_requests "4.5.6" (Z.to_nat (2 + 1))
    ∧ length (List.filter is_get evs) = Z.to_nat (2 + 1)
    ∧ length (List.filter is_sleep evs) = Z.to_nat 2
    ∧ fs w' = fs w
    ∧ path_exists (fs w') dest = false.
Proof.
  intros bad dest w. apply (C4_retry_bound "4.5.6" dest 2 w).
  - lia.
  - reflexivity.
  - right. intros rs Hrs. vm_compute in Hrs. injection Hrs as <-.
    repeat constructor.
Defined.

(** C5. With [max_retries ≥ 0] and the destination present,
    [download_series] returns the destination after the existence check
    alone: no request, no change of any file. In particular this is what a
    second call does in the world that a first call left after writing the
    file. *)
Theorem C5_existing_file_short_circuit series_id dest_file max_retries w :
  0 ≤ max_retries →
  (path_exists (fs w) dest_file = true →
   download_series series_id dest_file max_retries w
   = (Ok (dest_file, AtExists),
      mkWorld (fs w) (net w) (log w ++ [EvExists dest_file])))
  ∧ (∀ first_retries w0,
       download_series series_id dest_file first_retries w0
       = (Ok (dest_file, AtWritten), w) →
       download_series series_id dest_file max_retries w
       = (Ok (dest_file, AtExists),
          mkWorld (fs w) (net w) (log w ++ [EvExists dest_file]))).
Proof.
  intros Hmax.
  assert (path_exists (fs w) dest_file = true →
          download_series series_id dest_file max_retries w
          = (Ok (dest_file, AtExists),
             mkWorld (fs w) (net w) (log w ++ [EvExists dest_file]))) as Hskip.
  { intros Hex. unfold download_series. rewrite retry_loop_turn.
    rewrite decide_True by lia. by rewrite try_body_exists. }
  split; [done|]. intros first_retries w0 Hfirst. apply Hskip.
  by eapply retry_loop_present.
Qed.

Lemma C5_existing_file_short_circuit_witness :
  let dest := Path false ["out"; "1.2.3.zip"] in
  let w := mkWorld {[ Path false ["out"] := Dir; dest := File "PK" ]}
             {[ "1.2.3" := [ConnFail] ]} [] in
  0 ≤ 3
  ∧ path_exists (fs w) dest = true
  ∧ download_series "1.2.3" dest 3 w
    = (Ok (dest, AtExists), mkWorld (fs w) (net w) (log w ++ [EvExists dest])).
Proof.
  intros dest w. split; [lia|]. split; [reflexivity|].
  apply (C5_existing_file_short_circuit "1.2.3" dest 3 w); [lia|reflexivity].
Defined.

(** C6. In an attempt where the response arrives with a good status and
    the type tag taken from its [metadata] header is not ["ZIP"], the [try]
    body raises without opening or writing the destination file, and the
    loop treats the attempt as it treats one whose connection failed: the
    same [except] clause runs with the same [retry_count], which it
    increments. *)
Theorem C6_content_type_guard series_id dest_file max_retries retry_count w
    status metadata body broken rest document filetype :
  path_exists (fs w) dest_file = false →
  net w !! series_id = Some (Reply status metadata body broken :: rest) →
  http_error status = false →
  json_loads_header metadata = Ok document →
  filetype_of document = Ok filetype →
  is_zip filetype = false →
  retry_count ≤ max_retries →
  let w1 := mkWorld (fs w) (<[series_id := rest]> (net w))
              (log w ++ [EvExists dest_file; EvGet series_id]) in
  try_body series_id dest_file w = (Raise ValueError, w1)
  ∧ retry_loop series_id dest_file max_retries retry_count w
    = except_clause series_id dest_file max_retries retry_count ValueError w1
  ∧ (∀ wc, fs wc = fs w → log wc = log w →
       net wc = <[series_id := ConnFail :: rest]> (net w) →
       try_body series_id dest_file wc = (Raise ConnectionError, w1)
       ∧ retry_loop series_id dest_file max_retries retry_count wc
         = except_clause series_id dest_file max_retries retry_count
             ConnectionError w1).
Proof.
  intros Hex Hnet Hst Hmd Hft Hzip Hrc w1.
  assert (try_body series_id dest_file w = (Raise ValueError, w1)) as Htry.
  { rewrite try_body_unfold. simpl. rewrite Hex. unfold requests_get. simpl.
    rewrite Hnet, Hst, Hmd, Hft, Hzip. subst w1. by rewrite <- app_assoc. }
  split; [done|]. split.
  { rewrite retry_loop_turn, decide_True by done. by rewrite Htry. }
  intros wc Hfs Hlog Hnetc.
  assert (try_body series_id dest_file wc = (Raise ConnectionError, w1)) as Htryc.
  { rewrite try_body_unfold. simpl. rewrite Hfs, Hex. unfold requests_get. simpl.
    rewrite Hnetc, lookup_insert_eq, insert_insert_eq, Hfs, Hlog.
    subst w1. by rewrite <- app_assoc. }
  split; [done|].
  rewrite retry_loop_turn, decide_True by done. by rewrite Htryc.
Qed.

Lemma C6_content_type_guard_witness :
  let tag := JObj [("Result", JObj [("Type", JArr [JStr "zip"])])] in
  let dest := Path false ["out"; "1.2.3.zip"] in
  let w := mkWorld {[ Path false ["out"] := Dir ]}
             {[ "1.2.3" := [Reply 200 (Parsed tag) ["PK"] false] ]} [] in
  let w1 := mkWorld (fs w) (<["1.2.3" := []]> (net w))
              (log w ++ [EvExists dest; EvGet "1.2.3"]) in
  try_body "1.2.3" dest w = (Raise ValueError, w1)
  ∧ retry_loop "1.2.3" dest 1 0 w = except_clause "1.2.3" dest 1 0 ValueError w1.
Proof.
  intros tag dest w w1.
  destruct (C6_content_type_guard "1.2.3" dest 1 0 w 200 (Parsed tag) ["PK"] false []
              tag (JStr "zip")) as (H1 & H2 & _);
    [reflexivity..|lia|]. by split.
Defined.


(** C10. With [max_retries < 0] the loop body never runs:
    [download_series] returns the destination and the world is as before,
    with no event at all. *)
Theorem C10_negative_budget series_id dest_file max_retries w :
  max_retries < 0 →
  download_series series_id dest_file max_retries w
  = (Ok (dest_file, AfterLoop), w).
Proof.
  intros Hneg. unfold download_series. rewrite retry_loop_turn.
  by rewrite decide_False by lia.
Qed.

Lemma C10_negative_budget_witness :
  let dest := Path false ["out"; "1.2.3.zip"] in
  let w := mkWorld ∅ {[ "1.2.3" := [ConnFail] ]} [] in
  -1 < 0 ∧ download_series "1.2.3" dest (-1) w = (Ok (dest, AfterLoop), w).
Proof.
  intros dest w. split; [lia|]. apply (C10_negative_budget "1.2.3" dest (-1) w). lia.
Defined.

(** ** The file system operations *)

Section FileSystem.
Implicit Types (f : gmap PurePath node) (p q : PurePath).

Lemma lineage_parts p q : q ∈ lineage p → parts q ≠ [].
Proof.
  unfold lineage. intros (n & -> & Hn)%list_elem_of_fmap. simpl.
  apply elem_of_seq in Hn. destruct (parts p); simpl in *; [lia|done].
Qed.

Lemma lineage_self p : parts p ≠ [] → p ∈ lineage p.
Proof.
  intros Hp. unfold lineage. apply list_elem_of_fmap.
  exists (pred (length (parts p))). split.
  - destruct p as [a ps]. simpl in *. f_equal.
    destruct ps as [|x ps]; [done|]. simpl. by rewrite take_ge.
  - apply elem_of_seq. destruct (parts p); simpl in *; [done|lia].
Qed.

(** Creating directories only fills places that were empty. *)
Lemma ensure_dirs_spec qs f q :
  fold_left ensure_dir qs f !! q = f !! q
  ∨ (f !! q = None ∧ fold_left ensure_dir qs f !! q = Some Dir ∧ q ∈ qs).
Proof.
  revert f. induction qs as [|x qs IH]; intros f; simpl; [by left|].
  destruct (IH (ensure_dir f x)) as [->|(Hn & -> & Hin)].
  - unfold ensure_dir. destruct (f !! x) eqn:Hx; [by left|].
    destruct (decide (x = q)) as [->|Hne].
    + right. rewrite lookup_insert_eq. split; [done|]. split; [done|]. left.
    + left. by rewrite lookup_insert_ne.
  - right. split; [|split; [done|by right]].
    unfold ensure_dir in Hn. destruct (f !! x) eqn:Hx; [done|].
    destruct (decide (x = q)) as [->|Hne]; [done|].
    by rewrite lookup_insert_ne in Hn.
Qed.

Lemma ensure_dirs_present qs f q :
  q ∈ qs → is_Some (fold_left ensure_dir qs f !! q).
Proof.
  revert f. induction qs as [|x qs IH]; intros f Hq; [by inversion Hq|].
  simpl. destruct (decide (q = x)) as [->|Hne].
  - destruct (ensure_dirs_spec qs (ensure_dir f x) x) as [->|(_ & -> & _)]; [|eauto].
    unfold ensure_dir. destruct (f !! x) eqn:Hx; [by rewrite Hx|].
    rewrite lookup_insert_eq. eauto.
  - apply IH. by apply elem_of_cons in Hq as [?|?].
Qed.

Lemma mkdir_parents_spec f p f' q :
  mkdir_parents f p = Ok f' →
  f' !! q = f !! q ∨ (f !! q = None ∧ f' !! q = Some Dir ∧ q ∈ lineage p).
Proof.
  unfold mkdir_parents. destruct (is_file f p); [done|].
  destruct (existsb (is_file f) (lineage p)); [done|].
  intros [= <-]. apply ensure_dirs_spec.
Qed.

Lemma mkdir_parents_is_dir f p f' :
  mkdir_parents f p = Ok f' → is_dir f' p = true.
Proof.
  intros Hmk. unfold is_dir, lookup_node.
  destruct (parts p) as [|x xs] eqn:Hp; [done|].
  assert (p ∈ lineage p) as Hin by (apply lineage_self; by rewrite Hp).
  destruct (mkdir_parents_spec _ _ _ p Hmk) as [Heq|(_ & -> & _)]; [|done].
  unfold mkdir_parents in Hmk. destruct (is_file f p) eqn:Hfile; [done|].
  destruct (existsb (is_file f) (lineage p)); [done|]. injection Hmk as <-.
  destruct (ensure_dirs_present (lineage p) f p Hin) as [n Hn].
  rewrite Hn. rewrite Heq in Hn. unfold is_file, lookup_node in Hfile.
  rewrite Hp, Hn in Hfile. by destruct n.
Qed.

Lemma mkdir_parents_is_file f p f' q :
  mkdir_parents f p = Ok f' → is_file f' q = is_file f q.
Proof.
  intros Hmk. unfold is_file, lookup_node. destruct (parts q); [done|].
  by destruct (mkdir_parents_spec _ _ _ q Hmk) as [->|(-> & -> & _)].
Qed.

Lemma mkdir_parents_read f p f' q :
  mkdir_parents f p = Ok f' → is_file f' q = true → read_text f' q = read_text f q.
Proof.
  intros Hmk. unfold is_file, read_text, lookup_node. destruct (parts q); [done|].
  destruct (mkdir_parents_spec _ _ _ q Hmk) as [->|(_ & -> & _)]; done.
Qed.

(** A copy writes the text of the source at the target and nothing else;
    the target is not a directory before. *)
Lemma shutil_copy_spec f src dst f' :
  shutil_copy f src dst = Ok f' →
  is_dir f dst = true →
  let target := join dst (name src) in
  ∃ text, read_text f src = Ok text
          ∧ f' = <[target := File text]> f
          ∧ target ≠ src ∧ is_dir f target = false.
Proof.
  unfold shutil_copy, read_text. intros Hcp Hdst. rewrite Hdst in Hcp. simpl.
  destruct (lookup_node f src) as [[|text]|]; [done| |done].
  case_decide as Hsame; [done|].
  unfold open_wb in Hcp.
  destruct (is_dir f (join dst (name src))) eqn:Hd; [done|].
  destruct (is_dir f (parent (join dst (name src)))); [|done].
  injection Hcp as <-. exists text. split; [done|]. split; [|by split].
  unfold write_chunk. apply map_eq. intros q.
  destruct (decide (join dst (name src) = q)) as [<-|Hne].
  - by rewrite lookup_alter_eq, !lookup_insert_eq.
  - by rewrite lookup_alter_ne, !lookup_insert_ne.
Qed.

End FileSystem.

(** ** The orchestrator *)

Section Orchestrator.
Context (manifest_path output_base_path : string) (njobs : Z).

Let p := path_of_string manifest_path.
Let folder := join (path_of_string output_base_path) (name p).

(** The steps of [download_from_manifest] with the threading of the
    world written out. *)
Lemma download_from_manifest_unfold w :
  download_from_manifest manifest_path output_base_path njobs w =
  match mkdir_parents (fs w) folder with
  | Raise e => (Raise e, w)
  | Ok f1 =>
      if is_file f1 p then
        match shutil_copy f1 p folder with
        | Raise e => (Raise e, set_fs f1 w)
        | Ok f2 =>
            let w2 := print (MsgParsing p) (set_fs f2 w) in
            match parse_manifest f2 p with
            | Raise e => (Raise e, w2)
            | Ok manifest_data =>
                match first_item (get_retry_entry manifest_data) with
                | Raise e => (Raise e, w2)
                | Ok item =>
                    match py_int item with
                    | Raise e => (Raise e, w2)
                    | Ok no_of_retries =>
                        let ids := default [] (manifest_data !! "ListOfSeriesToDownload") in
                        let w3 := print (MsgDownloading (length ids) folder) w2 in
                        if njobs <=? 0 then (Raise ValueError, w3)
                        else
                          (_ ← for_each (λ series_id,
                                 act (emit (EvSubmit series_id
                                              (job_dest folder series_id)
                                              no_of_retries))) ids;
                           results ← for_each (λ series_id,
                                 download_series series_id
                                   (job_dest folder series_id) no_of_retries) ids;
                           _ ← act (print MsgDone);
                           mret results) w3
                    end
                end
            end
        end
      else (Raise ValueError, set_fs f1 w)
  end.
Proof.
  unfold download_from_manifest. fold p. fold folder.
  unfold mbind, M_bind, on_fs, act, lift, raise, mret, M_ret.
  destruct (mkdir_parents (fs w) folder) as [f1|e]; [|done].
  cbn [fs set_fs].
  destruct (is_file f1 p); [|done]. cbn [negb fs set_fs].
  destruct (shutil_copy f1 p folder) as [f2|e]; [|done].
  cbn [fs set_fs print emit net log].
  destruct (parse_manifest f2 p) as [md|e]; [|done].
  destruct (first_item (get_retry_entry md)) as [item|e]; [|done].
  destruct (py_int item) as [mr|e]; [|done].
  by destruct (njobs <=? 0).
Qed.

End Orchestrator.

(** C1 (as stated, refuted). The manifest path [nope.tcia] names nothing in
    an empty file system; the orchestrator raises, but by then it has
    created the output root [out] and the destination folder
    [out/nope.tcia], so the file system has changed. *)
Lemma C1_folder_created_counterexample :
  let w := mkWorld ∅ ∅ [] in
  let folder := Path false ["out"; "nope.tcia"] in
  let r := download_from_manifest "nope.tcia" "out" 1 w in
  is_file (fs w) (path_of_string "nope.tcia") = false
  ∧ r.1 = Raise ValueError
  ∧ path_exists (fs w) folder = false
  ∧ is_dir (fs r.2) folder = true
  ∧ fs r.2 ≠ fs w.
Proof.
  intros w folder r.
  assert (is_dir (fs r.2) folder = true) as Hdir by (by vm_compute).
  assert (is_dir (fs w) folder = false) as Hno by (by vm_compute).
  split; [by vm_compute|]. split; [by vm_compute|]. split; [by vm_compute|].
  split; [done|].
  intros Heq. rewrite Heq in Hdir. by rewrite Hdir in Hno.
Qed.

(** C1 (amended). When the manifest path is not a regular file the
    orchestrator raises before it copies or parses anything and before any
    job is submitted: the console and the service are untouched. The
    destination folder has been dealt with first, so the file system may
    differ, by directories only, each on the way to the destination folder;
    and when the folder can be created the error is the [ValueError] of the
    check and the folder exists. *)
Theorem C1_invalid_manifest_fails manifest_path output_base_path njobs w :
  is_file (fs w) (path_of_string manifest_path) = false →
  let folder := join (path_of_string output_base_path)
                  (name (path_of_string manifest_path)) in
  ∃ e w',
    download_from_manifest manifest_path output_base_path njobs w = (Raise e, w')
    ∧ net w' = net w
    ∧ log w' = log w
    ∧ (∀ q, fs w' !! q = fs w !! q
            ∨ (fs w !! q = None ∧ fs w' !! q = Some Dir ∧ q ∈ lineage folder))
    ∧ (is_ok (mkdir_parents (fs w) folder) = true →
       e = ValueError ∧ is_dir (fs w') folder = true).
Proof.
  intros Hfile folder. rewrite download_from_manifest_unfold. fold folder.
  destruct (mkdir_parents (fs w) folder) as [f1|e] eqn:Hmk.
  - rewrite (mkdir_parents_is_file _ _ _ _ Hmk), Hfile.
    exists ValueError, (set_fs f1 w). repeat split; try done.
    + intros q. by apply (mkdir_parents_spec _ _ _ q Hmk).
    + by apply (mkdir_parents_is_dir _ _ _ Hmk).
  - exists e, w. repeat split; try done. by left.
Qed.

Lemma C1_invalid_manifest_fails_witness :
  let w := mkWorld {[ Path false ["data"] := Dir ]} ∅ [] in
  let folder := join (path_of_string "out") (name (path_of_string "data")) in
  is_file (fs w) (path_of_string "data") = false
  ∧ ∃ e w',
      download_from_manifest "data" "out" 5 w = (Raise e, w')
      ∧ net w' = net w
      ∧ log w' = log w
      ∧ (∀ q, fs w' !! q = fs w !! q
              ∨ (fs w !! q = None ∧ fs w' !! q = Some Dir ∧ q ∈ lineage folder))
      ∧ (is_ok (mkdir_parents (fs w) folder) = true →
         e = ValueError ∧ is_dir (fs w') folder = true).
Proof.
  intros w folder. split; [reflexivity|].
  apply (C1_invalid_manifest_fails "data" "out" 5 w). reflexivity.
Defined.

Lemma read_text_insert_ne (f : gmap PurePath node) (t q : PurePath) (n : node) :
  t ≠ q → read_text (<[t := n]> f) q = read_text f q.
Proof.
  intros Hne. unfold read_text, lookup_node. destruct (parts q); [done|].
  by rewrite lookup_insert_ne.
Qed.

Lemma read_text_is_file (f : gmap PurePath node) (q : PurePath) text :
  read_text f q = Ok text → is_file f q = true.
Proof.
  unfold read_text, is_file. by destruct (lookup_node f q) as [[|c]|].
Qed.

(** C2 (the code at the failing input). When the manifest is a readable
    file whose parsed form has no key [noOfrRetry], the orchestrator never
    completes: it raises, and once the folder is made and the manifest is
    copied the exception is the [TypeError] of taking the first item of the
    integer default [0] of [get]. No job is submitted: at most the one line
    about parsing is printed. *)
Theorem C2_absent_retry_key_raises manifest_path output_base_path njobs w text :
  let p := path_of_string manifest_path in
  let folder := join (path_of_string output_base_path) (name p) in
  read_text (fs w) p = Ok text →
  parse_text text !! "noOfrRetry" = None →
  ∃ e w',
    download_from_manifest manifest_path output_base_path njobs w = (Raise e, w')
    ∧ (log w' = log w ∨ log w' = log w ++ [EvPrint (MsgParsing p)])
    ∧ (∀ f1 f2, mkdir_parents (fs w) folder = Ok f1 →
                shutil_copy f1 p folder = Ok f2 →
                e = TypeError ∧ w' = print (MsgParsing p) (set_fs f2 w)).
Proof.
  intros p folder Hread Hkey.
  rewrite download_from_manifest_unfold. fold p. fold folder.
  destruct (mkdir_parents (fs w) folder) as [f1|e] eqn:Hmk.
  2:{ exists e, w. split; [done|]. split; [by left|]. by intros. }
  assert (is_file f1 p = true) as Hfile.
  { rewrite (mkdir_parents_is_file _ _ _ _ Hmk). by eapply read_text_is_file. }
  rewrite Hfile.
  destruct (shutil_copy f1 p folder) as [f2|e] eqn:Hcp.
  2:{ exists e, (set_fs f1 w). split; [done|]. split; [by left|].
      intros ?? [= <-] Hc. congruence. }
  assert (parse_manifest f2 p = Ok (parse_text text)) as ->.
  { destruct (shutil_copy_spec _ _ _ _ Hcp (mkdir_parents_is_dir _ _ _ Hmk))
      as (text' & _ & -> & Hne & _).
    unfold parse_manifest. rewrite read_text_insert_ne by done.
    by rewrite (mkdir_parents_read _ _ _ _ Hmk Hfile), Hread. }
  unfold get_retry_entry. rewrite Hkey. simpl.
  eexists _, _. split; [done|]. split; [by right|].
  intros ?? [= <-] Hc. rewrite Hcp in Hc. by injection Hc as <-.
Qed.

Lemma C2_absent_retry_key_raises_witness :
  let text := "ListOfSeriesToDownload=
1.2.3
" in
  let w := mkWorld {[ Path false ["m.tcia"] := File text ]} ∅ [] in
  let p := path_of_string "m.tcia" in
  let folder := join (path_of_string "out") (name p) in
  read_text (fs w) p = Ok text
  ∧ parse_text text !! "noOfrRetry" = None
  ∧ ∃ e w',
      download_from_manifest "m.tcia" "out" 1 w = (Raise e, w')
      ∧ (log w' = log w ∨ log w' = log w ++ [EvPrint (MsgParsing p)])
      ∧ (∀ f1 f2, mkdir_parents (fs w) folder = Ok f1 →
                  shutil_copy f1 p folder = Ok f2 →
                  e = TypeError ∧ w' = print (MsgParsing p) (set_fs f2 w)).
Proof.
  intros text w p folder.
  split; [by vm_compute|]. split; [by vm_compute|].
  apply (C2_absent_retry_key_raises "m.tcia" "out" 1 w text); by vm_compute.
Defined.

(** The failing input run to its end, and the same manifest with a retry
    count of [0] written out. *)
Example absent_retry_key_type_error :
  let w := mkWorld {[ Path false ["m.tcia"] := File "ListOfSeriesToDownload=
1.2.3
" ]} ∅ [] in
  (download_from_manifest "m.tcia" "out" 1 w).1 = Raise TypeError.
Proof. by vm_compute. Qed.

Example retry_key_zero_goes_through :
  let w := mkWorld {[ Path false ["m.tcia"] := File "ListOfSeriesToDownload=
1.2.3
noOfrRetry=0
" ]} ∅ [] in
  (download_from_manifest "m.tcia" "out" 1 w).1
  = Ok [(Path false ["out"; "m.tcia"; "1.2.3.zip"], AfterLoop)].
Proof. by vm_compute. Qed.

(** ** Jobs one after the other *)

Section Jobs.

Lemma grows_refl w : grows w w.
Proof.
  split; [done|]. exists []. rewrite app_nil_r. split; [done|].
  intros q Hn [n Hs]. congruence.
Qed.

Lemma grows_trans w1 w2 w3 : grows w1 w2 → grows w2 w3 → grows w1 w3.
Proof.
  intros [Hk1 (evs1 & Hl1 & Hn1)] [Hk2 (evs2 & Hl2 & Hn2)]. split; [by eauto|].
  exists (evs1 ++ evs2). rewrite Hl2, Hl1, <- app_assoc. split; [done|].
  intros q Hq Hs. apply elem_of_app.
  destruct (fs w2 !! q) as [n|] eqn:H2; [left; apply Hn1; eauto|right; by apply Hn2].
Qed.

(** Events alone do not change what exists. *)
Lemma grows_same_fs w w' evs :
  fs w' = fs w → log w' = log w ++ evs → grows w w'.
Proof.
  intros Hfs Hlog. split; [by rewrite Hfs|]. exists evs. split; [done|].
  rewrite Hfs. intros q Hn [n Hs]. congruence.
Qed.

Lemma grows_emit e w : grows w (emit e w).
Proof. by apply (grows_same_fs _ _ [e]). Qed.

Lemma grows_exists w w' q :
  grows w w' → path_exists (fs w) q = true → path_exists (fs w') q = true.
Proof.
  intros [Hk _]. unfold path_exists, lookup_node. destruct (parts q); [done|].
  destruct (fs w !! q) as [n|] eqn:Hq; [|done]. by rewrite (Hk _ _ Hq).
Qed.


Lemma path_exists_false f q :
  path_exists f q = false → f !! q = None.
Proof.
  unfold path_exists, lookup_node. destruct (parts q); [done|].
  by destruct (f !! q).
Qed.

Lemma try_body_grows series_id dest_file w r w1 :
  try_body series_id dest_file w = (r, w1) → grows w w1.
Proof.
  rewrite try_body_unfold. simpl.
  destruct (path_exists (fs w) dest_file) eqn:Hex.
  { intros [= <- <-]. apply grows_emit. }
  destruct (requests_get series_id (emit (EvExists dest_file) w)) as [resp w0] eqn:Hget.
  apply requests_get_spec in Hget as (Hfs & Hlog & _). simpl in Hfs, Hlog.
  assert (grows w w0) as Hw0.
  { eapply grows_same_fs; [done|]. by rewrite Hlog, <- app_assoc. }
  destruct resp as [|st md body br]; [by intros [= <- <-]|].
  destruct (http_error st); [by intros [= <- <-]|].
  destruct (json_loads_header md) as [m|]; [|by intros [= <- <-]].
  destruct (filetype_of m) as [ft|]; [|by intros [= <- <-]].
  destruct (is_zip ft); [|by intros [= <- <-]].
  destruct (open_wb (fs w0) dest_file) as [f|] eqn:Hopen; [|by intros [= <- <-]].
  intros Hres.
  assert (w1 = write_chunks dest_file body
                 (emit (EvOpenWb dest_file) (set_fs f w0))) as ->
    by (destruct br; by injection Hres as <- <-).
  clear Hres. apply path_exists_false in Hex.
  unfold open_wb in Hopen. destruct (is_dir (fs w0) dest_file); [done|].
  destruct (is_dir (fs w0) (parent dest_file)); [|done]. injection Hopen as <-.
  set (wo := emit (EvOpenWb dest_file)
               (set_fs (<[dest_file := File ""]> (fs w0)) w0)).
  destruct (write_chunks_log dest_file body wo) as (evs & Hlogw & _).
  split.
  - intros q n Hq. assert (q ≠ dest_file) as Hne by congruence.
    rewrite write_chunks_other by done. simpl.
    rewrite lookup_insert_ne by done. by rewrite Hfs.
  - exists ([EvExists dest_file; EvGet series_id] ++ EvOpenWb dest_file :: evs).
    split.
    + rewrite Hlogw. simpl. rewrite Hlog. by rewrite <- !app_assoc.
    + intros q Hq Hs. destruct (decide (q = dest_file)) as [->|Hne].
      * apply elem_of_app. right. left.
      * rewrite write_chunks_other in Hs by done. simpl in Hs.
        rewrite lookup_insert_ne, Hfs in Hs by done. destruct Hs. congruence.
Qed.

Lemma retry_loop_grows series_id dest_file max_retries rc w :
  grows w (retry_loop series_id dest_file max_retries rc w).2.
Proof.
  apply (retry_loop_turns series_id dest_file max_retries (λ _ w r, grows w r.2)).
  - intros. apply grows_refl.
  - intros ???? _ Htry. by eapply try_body_grows.
  - intros ???? _ Htry _. simpl.
    eapply grows_trans; [by eapply try_body_grows|].
    eapply grows_trans; apply grows_emit.
  - intros ????? _ Htry _ Hrest.
    eapply grows_trans; [by eapply try_body_grows|].
    eapply grows_trans; [apply grows_emit|].
    eapply grows_trans; [apply grows_emit|].
    eapply grows_trans; [apply grows_emit|]. done.
Qed.


(** The jobs in order: each result is the destination of its series; a
    job that returned from inside the [try] body has its file at the
    end. *)
Lemma run_jobs_spec folder no_of_retries ids : ∀ w results w',
  for_each (λ series_id,
     download_series series_id (job_dest folder series_id) no_of_retries) ids w
  = (Ok results, w') →
  grows w w'
  ∧ map fst results = map (job_dest folder) ids
  ∧ ∀ d s, (d, s) ∈ results → s ≠ AfterLoop → path_exists (fs w') d = true.
Proof.
  induction ids as [|x ids IH]; intros w results w'; simpl.
  - intros [= <- <-]. split; [apply grows_refl|]. split; [done|].
    intros d s Hin. by inversion Hin.
  - unfold mbind, M_bind at 1. unfold download_series at 1.
    pose proof (retry_loop_grows x (job_dest folder x) no_of_retries 0 w) as Hg1.
    destruct (retry_loop_returns x (job_dest folder x) no_of_retries 0 w)
      as (s1 & w1 & Hrun).
    pose proof (retry_loop_present _ _ _ _ _ _ _ Hrun) as Hpres.
    rewrite Hrun in Hg1 |- *. simpl in Hg1.
    unfold mbind, M_bind at 1.
    destruct (for_each _ ids w1) as [[ys|e] w2] eqn:Hrest; [|done].
    intros [= <- <-]. destruct (IH _ _ _ Hrest) as (Hg2 & Hmap & Hall).
    split; [by eapply grows_trans|]. split; [simpl; by rewrite Hmap|].
    intros d s [[= -> ->]|Hin]%elem_of_cons Hs.
    + eapply grows_exists; [done|]. by apply Hpres.
    + by eapply Hall.
Qed.

End Jobs.

(** ** Destinations *)

Section Destinations.

Lemma append_cons a (s t : string) : String a s +:+ t = String a (s +:+ t).
Proof. done. Qed.






End Destinations.

(** ** The layout after a run *)




(** * Further properties *)

(** ** The parser *)

Section ParserMore.
Import Py.

Lemma lstrip_head_ok s : head_ok (lstrip s) = true.
Proof.
  induction s as [|c s IH]; simpl; [done|].
  destruct (isspace c) eqn:Hc; [done|]. simpl. by rewrite Hc.
Qed.

Lemma head_ok_lstrip s : head_ok s = true → lstrip s = s.
Proof. destruct s as [|c s]; simpl; [done|]. by destruct (isspace c). Qed.

Lemma rstrip_head_ok s : head_ok s = true → head_ok (rstrip s) = true.
Proof.
  destruct s as [|c s]; simpl; [done|]. intros Hc.
  destruct (rstrip s); simpl; [|done].
  destruct (isspace c) eqn:E; simpl; by rewrite ?E.
Qed.

Lemma strip_idem s : strip (strip s) = strip s.
Proof.
  unfold strip.
  rewrite (head_ok_lstrip (rstrip (lstrip s)))
    by apply rstrip_head_ok, lstrip_head_ok.
  apply rstrip_idem.
Qed.

Lemma contains_lstrip c s : contains c s = false → contains c (lstrip s) = false.
Proof.
  induction s as [|a s IH]; simpl; [done|].
  destruct (decide (c = a)); [done|]. intros Hs.
  destruct (isspace a); [by apply IH|]. simpl. by rewrite decide_False.
Qed.

Lemma contains_rstrip c s : contains c s = false → contains c (rstrip s) = false.
Proof.
  induction s as [|a s IH]; simpl; [done|].
  destruct (decide (c = a)) as [|Hne]; [done|]. intros Hs.
  specialize (IH Hs). destruct (rstrip s) as [|b r].
  - destruct (isspace a); simpl; [done|]. by rewrite decide_False.
  - change (contains c (String a (String b r)))
      with (if decide (c = a) then true else contains c (String b r)).
    by rewrite decide_False.
Qed.

Lemma contains_strip c s : contains c s = false → contains c (strip s) = false.
Proof. intros Hs. by apply contains_rstrip, contains_lstrip. Qed.

Lemma partition_head_free c s : contains c (partition c s).1.1 = false.
Proof.
  induction s as [|a s IH]; simpl; [done|].
  destruct (decide (c = a)); [done|].
  destruct (partition c s) as [[h sep] t]. simpl in *. by rewrite decide_False.
Qed.

Lemma parse_line_strip st raw : parse_line st (strip raw) = parse_line st raw.
Proof. unfold parse_line. by rewrite strip_idem. Qed.

Lemma parse_line_blank st raw : all_space raw = true → parse_line st raw = st.
Proof.
  intros Hb. unfold parse_line. apply strip_empty_iff in Hb. rewrite Hb. simpl.
  by rewrite andb_false_r.
Qed.

Lemma parse_line_values_clean st raw :
  values_clean (manifest_data st) → values_clean (manifest_data (parse_line st raw)).
Proof.
  intros Hst. unfold parse_line.
  destruct (contains "=" (strip raw)).
  - destruct (partition "=" (strip raw)) as [[k sep] v] eqn:Hp. simpl.
    intros k' vs x. destruct (decide (strip k = k')) as [<-|Hne].
    + rewrite lookup_insert_eq. intros [= <-].
      rewrite (value_truthy_trimmed _ _ _ _ Hp).
      case_bool_decide as Hv; simpl; [by intros ?%elem_of_nil|].
      intros ->%list_elem_of_singleton. split; [done|apply strip_idem].
    + rewrite lookup_insert_ne by done. apply Hst.
  - destruct (key_truthy (current_key st) && truthy (strip raw)) eqn:Hc; [|done].
    apply andb_prop in Hc as [_ Hline].
    destruct (current_key st) as [k|]; [|done]. simpl.
    intros k' vs x. destruct (decide (k = k')) as [<-|Hne].
    + rewrite lookup_alter_eq.
      destruct (manifest_data st !! k) as [ws|] eqn:Hk; [|done]. simpl.
      intros [= <-] [Hin| ->%list_elem_of_singleton]%elem_of_app.
      * by eapply Hst.
      * split; [|apply strip_idem]. intros Heq. by rewrite Heq in Hline.
    + rewrite lookup_alter_ne by done. apply Hst.
Qed.

Lemma parse_line_keys_clean st raw :
  keys_clean (manifest_data st) → keys_clean (manifest_data (parse_line st raw)).
Proof.
  intros Hst. unfold parse_line.
  destruct (contains "=" (strip raw)).
  - pose proof (partition_head_free "=" (strip raw)) as Hfree.
    destruct (partition "=" (strip raw)) as [[k sep] v]. simpl in *.
    intros k'. destruct (decide (strip k = k')) as [<-|Hne].
    + intros _. split; [apply strip_idem|by apply contains_strip].
    + rewrite lookup_insert_ne by done. apply Hst.
  - destruct (key_truthy (current_key st) && truthy (strip raw)); [|done].
    destruct (current_key st) as [k|]; [|done]. simpl.
    intros k'. rewrite lookup_alter. case_decide; subst; [|apply Hst].
    rewrite fmap_is_Some. apply Hst.
Qed.

Lemma parse_lines_invariant (P : pstate → Prop) lines :
  P pstate_init → (∀ st raw, P st → P (parse_line st raw)) → P (parse_lines lines).
Proof.
  intros H0 Hstep. unfold parse_lines, parse_lines_from.
  revert H0. generalize pstate_init.
  induction lines as [|l lines IH]; intros st Hst; simpl; [done|].
  apply IH. by apply Hstep.
Qed.

End ParserMore.

(** X1. At every point of the parse the key held in [current_key] is a key
    of [manifest_data]: the [append] at line 30 of the source never meets a
    missing key, whatever the text. *)
Theorem X1_current_key_has_entry text k :
  current_key (parse_lines (Py.file_lines text)) = Some k →
  is_Some (parse_text text !! k).
Proof. intros Hk. by apply (current_key_registered (Py.file_lines text)). Qed.

Lemma X1_current_key_has_entry_witness :
  current_key (parse_lines (Py.file_lines "K=a
b")) = Some "K"
  ∧ is_Some (parse_text "K=a
b" !! "K").
Proof.
  split; [by vm_compute|].
  apply (X1_current_key_has_entry "K=a
b" "K"). by vm_compute.
Defined.

(** X2. Every value that [parse_manifest] stores, under any key and for
    any text, is a string that is not empty and has no blank at either
    end. *)
Theorem X2_values_trimmed_nonempty text k vs v :
  parse_text text !! k = Some vs → v ∈ vs → v ≠ "" ∧ Py.strip v = v.
Proof.
  revert k vs v. change (values_clean (parse_text text)). unfold parse_text.
  apply (parse_lines_invariant (λ st, values_clean (manifest_data st))).
  - intros k vs v. unfold pstate_init. simpl. by rewrite lookup_empty.
  - intros st raw. apply parse_line_values_clean.
Qed.

Lemma X2_values_trimmed_nonempty_witness :
  parse_text "K =  a b
   c   " !! "K" = Some ["a b"; "c"]
  ∧ "c" ≠ "" ∧ Py.strip "c" = "c".
Proof.
  assert (parse_text "K =  a b
   c   " !! "K" = Some ["a b"; "c"]) as H by (by vm_compute).
  split; [exact H|].
  apply (X2_values_trimmed_nonempty _ "K" ["a b"; "c"] "c" H).
  apply elem_of_cons. right. apply elem_of_cons. by left.
Defined.

(** X3. Every key of the mapping that [parse_manifest] returns has no
    blank at either end and contains no [=]. *)
Theorem X3_keys_trimmed_without_separator text k :
  is_Some (parse_text text !! k) → Py.strip k = k ∧ Py.contains "=" k = false.
Proof.
  revert k. change (keys_clean (parse_text text)). unfold parse_text.
  apply (parse_lines_invariant (λ st, keys_clean (manifest_data st))).
  - intros k. unfold pstate_init. simpl. rewrite lookup_empty. by intros [? ?].
  - intros st raw. apply parse_line_keys_clean.
Qed.

Lemma X3_keys_trimmed_without_separator_witness :
  is_Some (parse_text "  a key  = x = y" !! "a key")
  ∧ Py.strip "a key" = "a key" ∧ Py.contains "=" "a key" = false.
Proof.
  assert (is_Some (parse_text "  a key  = x = y" !! "a key")) as H
    by (by vm_compute; eauto).
  split; [exact H|].
  exact (X3_keys_trimmed_without_separator _ "a key" H).
Defined.

Section ParserLines.
Import Py.

Lemma universal_newlines_contains_eq s :
  contains "=" (universal_newlines s) = contains "=" s
  ∧ ∀ c, contains "=" (universal_newlines (String c s)) = contains "=" (String c s).
Proof.
  induction s as [|d s [IH1 IH2]].
  - split; [done|]. intros c. simpl. by destruct (decide (c = CR)) as [->|].
  - split; [apply IH2|]. intros c.
    change (universal_newlines (String c (String d s)))
      with (if decide (c = CR) then
              if decide (d = LF) then String LF (universal_newlines s)
              else String LF (universal_newlines (String d s))
            else String c (universal_newlines (String d s))).
    destruct (decide (c = CR)) as [->|Hc].
    + destruct (decide (d = LF)) as [->|Hd].
      * change (contains "=" (String LF (universal_newlines s)))
          with (contains "=" (universal_newlines s)).
        by rewrite IH1.
      * change (contains "=" (String LF (universal_newlines (String d s))))
          with (contains "=" (universal_newlines (String d s))).
        by rewrite IH2.
    + change (contains "=" (String c (universal_newlines (String d s))))
        with (if decide ("="%char = c) then true
              else contains "=" (universal_newlines (String d s))).
      by rewrite IH2.
Qed.

Lemma iter_lines_contains c s l :
  contains c s = false → l ∈ iter_lines s → contains c l = false.
Proof.
  revert l. induction s as [|a s IH]; intros l; simpl; [by intros _ ?%elem_of_nil|].
  destruct (decide (c = a)) as [|Hne]; [done|]. intros Hs.
  destruct (decide (a = LF)).
  - intros [->|Hin]%elem_of_cons; [|by apply IH].
    simpl. by rewrite decide_False.
  - destruct (iter_lines s) as [|x xs].
    + intros ->%list_elem_of_singleton. simpl. by rewrite decide_False.
    + intros [->|Hin]%elem_of_cons.
      * simpl. rewrite decide_False by done. apply IH; [done|]. by left.
      * apply IH; [done|]. by right.
Qed.

Lemma parse_line_no_separator raw :
  contains "=" raw = false → parse_line pstate_init raw = pstate_init.
Proof.
  intros Hraw. unfold parse_line. by rewrite (contains_strip _ _ Hraw).
Qed.

Lemma parse_lines_skip pre raw post :
  all_space raw = true → parse_lines (pre ++ raw :: post) = parse_lines (pre ++ post).
Proof.
  intros Hb. rewrite !parse_lines_app. unfold parse_lines_from. simpl.
  by rewrite parse_line_blank.
Qed.

Lemma parse_lines_from_strip lines st :
  parse_lines_from st (map strip lines) = parse_lines_from st lines.
Proof.
  unfold parse_lines_from. revert st.
  induction lines as [|l lines IH]; intros st; simpl; [done|].
  by rewrite parse_line_strip, IH.
Qed.

(** The lines after a registration of a key that is not empty, none of
    them with [=], are appended in order, the blank ones left out. *)
Lemma parse_lines_from_appends K post : ∀ st vs,
  current_key st = Some K → truthy K = true →
  manifest_data st !! K = Some vs →
  Forall (λ x, contains "=" (strip x) = false) post →
  manifest_data (parse_lines_from st post) !! K
  = Some (vs ++ List.filter truthy (map strip post)).
Proof.
  unfold parse_lines_from.
  induction post as [|x post IH]; intros st vs Hk HK Hvs Hpost; simpl.
  - by rewrite app_nil_r.
  - apply Forall_cons in Hpost as [Hx Hpost].
    unfold parse_line at 2. rewrite Hx, Hk. simpl. rewrite HK. simpl.
    destruct (truthy (strip x)) eqn:Hline.
    + rewrite (IH _ (vs ++ [strip x])); try done.
      * by rewrite <- app_assoc.
      * simpl. by rewrite lookup_alter_eq, Hvs.
    + by apply IH.
Qed.

End ParserLines.

(** X4. A text without any [=] parses to the empty mapping: no line can
    register a key, and lines before any key are dropped. *)
Theorem X4_no_separator_empty_mapping text :
  Py.contains "=" text = false → parse_text text = ∅.
Proof.
  intros Htext. unfold parse_text, Py.file_lines.
  assert (Py.contains "=" (Py.universal_newlines text) = false) as Hun
    by (by rewrite (proj1 (universal_newlines_contains_eq text))).
  assert (∀ l, l ∈ Py.iter_lines (Py.universal_newlines text) →
               Py.contains "=" l = false) as Hlines
    by (intros l; by apply iter_lines_contains).
  enough (parse_lines (Py.iter_lines (Py.universal_newlines text)) = pstate_init)
    as -> by done.
  unfold parse_lines, parse_lines_from.
  induction (Py.iter_lines (Py.universal_newlines text)) as [|l ls IH]; simpl; [done|].
  rewrite parse_line_no_separator by (apply Hlines; by left).
  apply IH. intros x Hx. apply Hlines. by right.
Qed.

Lemma X4_no_separator_empty_mapping_witness :
  Py.contains "=" "1.2.3
4.5.6
" = false
  ∧ parse_text "1.2.3
4.5.6
" = ∅.
Proof.
  split; [reflexivity|].
  apply (X4_no_separator_empty_mapping "1.2.3
4.5.6
"). reflexivity.
Defined.

(** X5. A line made of blanks only (or an empty line) changes nothing,
    wherever it stands among the lines: it neither ends the values of the
    key before it nor adds a value. *)
Theorem X5_blank_line_ignored pre raw post :
  Py.all_space raw = true →
  parse_lines (pre ++ raw :: post) = parse_lines (pre ++ post).
Proof. apply parse_lines_skip. Qed.

Lemma X5_blank_line_ignored_witness :
  Py.all_space "
" = true
  ∧ parse_lines (["K=a
"] ++ "
" :: ["b
"]) = parse_lines (["K=a
"] ++ ["b
"]).
Proof.
  split; [reflexivity|].
  apply (X5_blank_line_ignored ["K=a
"] "
" ["b
"]). reflexivity.
Defined.

(** X6. Blanks at the two ends of the lines never matter: parsing the
    trimmed lines gives the same state as parsing the lines. *)
Theorem X6_line_blanks_irrelevant lines :
  parse_lines (map Py.strip lines) = parse_lines lines.
Proof. apply parse_lines_from_strip. Qed.

(** X7. After a line that registers a key [K] that is not empty, if none
    of the lines that follow has an [=], the entry of [K] is what that line
    assigns followed by the trimmed later lines that are not empty, in
    order, whatever came before. *)
Theorem X7_entry_is_value_then_lines pre l post K :
  line_key l = Some K →
  K ≠ "" →
  Forall (λ x, Py.contains "=" (Py.strip x) = false) post →
  manifest_data (parse_lines (pre ++ l :: post)) !! K
  = Some (line_values l ++ List.filter Py.truthy (map Py.strip post)).
Proof.
  intros Hl HK Hpost. rewrite parse_lines_app.
  generalize (parse_lines pre); intros st.
  change (parse_lines_from st (l :: post))
    with (parse_lines_from (parse_line st l) post).
  unfold line_key in Hl. unfold line_values.
  assert (parse_line st l
          = PState (<[K := line_values l]> (manifest_data st)) (Some K)) as ->.
  { unfold parse_line, line_values.
    destruct (Py.contains "=" (Py.strip l)); [|done].
    destruct (Py.partition "=" (Py.strip l)) as [[k sep] v]. simpl in *.
    by injection Hl as ->. }
  apply parse_lines_from_appends; try done.
  - by destruct K.
  - simpl. by rewrite lookup_insert_eq.
Qed.

Lemma X7_entry_is_value_then_lines_witness :
  let l := "ListOfSeriesToDownload=
" in
  let post := ["1.2.3
"; "
"; "  4.5.6
"] in
  manifest_data (parse_lines (["downloadServerUrl=x
"] ++ l :: post))
    !! "ListOfSeriesToDownload"
  = Some (line_values l ++ List.filter Py.truthy (map Py.strip post)).
Proof.
  intros l post.
  apply (X7_entry_is_value_then_lines ["downloadServerUrl=x
"] l post "ListOfSeriesToDownload").
  - by vm_compute.
  - done.
  - repeat constructor.
Defined.

(** ** The series fetcher *)

Section FetcherMore.
Context (series_id : string) (dest_file : PurePath) (max_retries : Z).

Lemma string_app_nil_r (s : string) : s +:+ "" = s.
Proof. induction s as [|a s IH]; [done|]. by rewrite append_cons, IH. Qed.

Lemma string_app_assoc (s t u : string) : (s +:+ t) +:+ u = s +:+ (t +:+ u).
Proof. induction s as [|a s IH]; [done|]. by rewrite !append_cons, IH. Qed.

Lemma write_chunks_content body : ∀ w c,
  fs w !! dest_file = Some (File c) →
  fs (write_chunks dest_file body w) !! dest_file = Some (File (c +:+ joined body)).
Proof.
  induction body as [|ch body IH]; intros w c Hc; simpl.
  - by rewrite string_app_nil_r.
  - destruct ch as [|a ch]; simpl; [by apply IH|].
    rewrite (IH _ (c +:+ String a ch)).
    + by rewrite string_app_assoc.
    + simpl. unfold write_chunk. by rewrite lookup_alter_eq, Hc.
Qed.

Lemma writes_quiet evs :
  Forall (λ e, ∃ c, e = EvWrite dest_file c) evs →
  timeline evs = []
  ∧ List.filter is_get evs = []
  ∧ List.filter is_sleep evs = []
  ∧ Forall (fetch_event series_id dest_file max_retries) evs.
Proof.
  induction 1 as [|e evs [c ->] _ (IH1 & IH2 & IH3 & IH4)]; [done|].
  simpl. repeat split; try done. by constructor.
Qed.

(** What one attempt adds to the events: at most one request, no pause. *)
Lemma try_body_events w r w1 :
  try_body series_id dest_file w = (r, w1) →
  ∃ evs, log w1 = log w ++ evs
         ∧ (length (List.filter is_get evs) ≤ 1)%nat
         ∧ List.filter is_sleep evs = []
         ∧ Forall (fetch_event series_id dest_file max_retries) evs.
Proof.
  rewrite try_body_unfold. simpl.
  destruct (path_exists (fs w) dest_file).
  { intros [= <- <-]. exists [EvExists dest_file]. simpl.
    repeat split; try done; try lia. by repeat constructor. }
  destruct (requests_get series_id (emit (EvExists dest_file) w)) as [resp w0] eqn:Hget.
  apply requests_get_spec in Hget as (Hfs & Hlog & _). simpl in Hlog.
  assert (∃ evs, log w0 = log w ++ evs
                 ∧ (length (List.filter is_get evs) ≤ 1)%nat
                 ∧ List.filter is_sleep evs = []
                 ∧ Forall (fetch_event series_id dest_file max_retries) evs) as Hw0.
  { exists [EvExists dest_file; EvGet series_id]. rewrite Hlog, <- app_assoc.
    simpl. repeat split; try done; try lia. by repeat constructor. }
  destruct resp as [|st md body br]; [by intros [= <- <-]|].
  destruct (http_error st); [by intros [= <- <-]|].
  destruct (json_loads_header md) as [m|]; [|by intros [= <- <-]].
  destruct (filetype_of m) as [ft|]; [|by intros [= <- <-]].
  destruct (is_zip ft); [|by intros [= <- <-]].
  destruct (open_wb (fs w0) dest_file) as [f|]; [|by intros [= <- <-]].
  intros Hres.
  assert (w1 = write_chunks dest_file body
                 (emit (EvOpenWb dest_file) (set_fs f w0))) as ->
    by (destruct br; by injection Hres as <- <-).
  destruct (write_chunks_log dest_file body
              (emit (EvOpenWb dest_file) (set_fs f w0))) as (evs & -> & Hevs).
  destruct (writes_quiet evs Hevs) as (_ & Hg & Hs & Hall).
  exists ([EvExists dest_file; EvGet series_id; EvOpenWb dest_file] ++ evs).
  simpl. rewrite Hlog, <- !app_assoc. simpl. rewrite Hg, Hs.
  repeat split; try done; try (simpl; lia). by repeat constructor.
Qed.

Lemma try_body_other w r w1 q :
  try_body series_id dest_file w = (r, w1) → q ≠ dest_file →
  fs w1 !! q = fs w !! q.
Proof.
  rewrite try_body_unfold. simpl. intros Hres Hq.
  destruct (path_exists (fs w) dest_file); [by injection Hres as <- <-|].
  destruct (requests_get series_id (emit (EvExists dest_file) w)) as [resp w0] eqn:Hget.
  apply requests_get_spec in Hget as (Hfs & _ & _). simpl in Hfs.
  destruct resp as [|st md body br]; [injection Hres as <- <-; by rewrite Hfs|].
  destruct (http_error st); [injection Hres as <- <-; by rewrite Hfs|].
  destruct (json_loads_header md) as [m|]; [|injection Hres as <- <-; by rewrite Hfs].
  destruct (filetype_of m) as [ft|]; [|injection Hres as <- <-; by rewrite Hfs].
  destruct (is_zip ft); [|injection Hres as <- <-; by rewrite Hfs].
  destruct (open_wb (fs w0) dest_file) as [f|] eqn:Hopen;
    [|injection Hres as <- <-; by rewrite Hfs].
  assert (w1 = write_chunks dest_file body
                 (emit (EvOpenWb dest_file) (set_fs f w0))) as ->
    by (destruct br; by injection Hres as <- <-).
  rewrite write_chunks_other by done. simpl.
  unfold open_wb in Hopen. destruct (is_dir (fs w0) dest_file); [done|].
  destruct (is_dir (fs w0) (parent dest_file)); [|done]. injection Hopen as <-.
  rewrite lookup_insert_ne by done. by rewrite Hfs.
Qed.

Lemma retry_loop_other rc w q :
  q ≠ dest_file →
  fs (retry_loop series_id dest_file max_retries rc w).2 !! q = fs w !! q.
Proof.
  intros Hq.
  apply (retry_loop_turns series_id dest_file max_retries
           (λ _ w r, fs r.2 !! q = fs w !! q)).
  - done.
  - intros ???? _ Htry. by eapply try_body_other.
  - intros ???? _ Htry _. simpl. by eapply try_body_other.
  - intros ????? _ Htry _ ->. simpl. by eapply try_body_other.
Qed.

(** The events of the loop from [retry_count] on. *)
Lemma retry_loop_events rc w :
  0 ≤ rc →
  ∃ evs, log (retry_loop series_id dest_file max_retries rc w).2 = log w ++ evs
         ∧ (length (List.filter is_get evs) ≤ Z.to_nat (max_retries + 1 - rc))%nat
         ∧ (length (List.filter is_sleep evs) ≤ Z.to_nat (max_retries - rc))%nat
         ∧ Forall (fetch_event series_id dest_file max_retries) evs.
Proof.
  apply (retry_loop_turns series_id dest_file max_retries
    (λ rc w r, 0 ≤ rc →
       ∃ evs, log r.2 = log w ++ evs
         ∧ (length (List.filter is_get evs) ≤ Z.to_nat (max_retries + 1 - rc))%nat
         ∧ (length (List.filter is_sleep evs) ≤ Z.to_nat (max_retries - rc))%nat
         ∧ Forall (fetch_event series_id dest_file max_retries) evs)).
  - intros ?? _ _. exists []. rewrite app_nil_r. simpl. repeat split; try done; lia.
  - intros rc0 w0 s w1 Hle Htry Hrc.
    destruct (try_body_events _ _ _ Htry) as (evs & Hlog & Hg & Hs & Hall).
    exists evs. simpl. rewrite Hs. simpl. repeat split; try done; lia.
  - intros rc0 w0 e w1 Hle Htry Hgt Hrc.
    destruct (try_body_events _ _ _ Htry) as (evs & Hlog & Hg & Hs & Hall).
    exists (evs ++ [EvPrint (MsgError series_id e);
                    EvPrint (MsgFailed series_id max_retries)]).
    simpl. rewrite Hlog, <- !app_assoc. simpl.
    rewrite !List.filter_app, !length_app, Hs. simpl.
    repeat split; try done; try lia.
    apply Forall_app. split; [done|]. by repeat constructor.
  - intros rc0 w0 e w1 r Hle Htry Hnext IH Hrc.
    destruct (try_body_events _ _ _ Htry) as (evs & Hlog & Hg & Hs & Hall).
    destruct IH as (evs' & Hlog' & Hg' & Hs' & Hall'); [lia|].
    exists (evs ++ [EvPrint (MsgError series_id e);
                    EvPrint (MsgRetrying (rc0 + 1) max_retries);
                    EvSleep 1] ++ evs').
    rewrite Hlog'. simpl. rewrite Hlog, <- !app_assoc. simpl.
    rewrite !List.filter_app, !length_app, Hs. simpl.
    repeat split; try done; try lia.
    apply Forall_app. split; [done|].
    repeat (constructor; [simpl; try done; lia|]). done.
Qed.

End FetcherMore.

(** X8. Whatever the service and the file system do, one call of
    [download_series] makes at most [max_retries + 1] requests and at most
    [max_retries] pauses (none when [max_retries] is negative), every pause
    lasts one second, every request is for its own series and every file
    event is on its own destination. *)
Theorem X8_request_bound series_id dest_file max_retries w :
  ∃ evs,
    log (download_series series_id dest_file max_retries w).2 = log w ++ evs
    ∧ (length (List.filter is_get evs) ≤ Z.to_nat (max_retries + 1))%nat
    ∧ (length (List.filter is_sleep evs) ≤ Z.to_nat max_retries)%nat
    ∧ Forall (fetch_event series_id dest_file max_retries) evs.
Proof.
  destruct (retry_loop_events series_id dest_file max_retries 0 w)
    as (evs & Hlog & Hg & Hs & Hall); [lia|].
  exists evs. unfold download_series. rewrite Hlog.
  repeat split; try done.
  - by rewrite Z.sub_0_r in Hg.
  - by rewrite Z.sub_0_r in Hs.
Qed.

(** X9. [download_series] changes nothing but its destination: every other
    path names after the call what it named before; and a destination that
    names something before the call names the same after it. *)
Theorem X9_only_destination_touched series_id dest_file max_retries w :
  let w' := (download_series series_id dest_file max_retries w).2 in
  (∀ q, q ≠ dest_file → fs w' !! q = fs w !! q)
  ∧ (∀ n, fs w !! dest_file = Some n → fs w' !! dest_file = Some n).
Proof.
  simpl. split.
  - intros q Hq. by apply retry_loop_other.
  - intros n Hn.
    destruct (retry_loop_grows series_id dest_file max_retries 0 w) as [Hkeep _].
    by apply Hkeep.
Qed.

Section Recovery.
Context (series_id : string) (dest_file : PurePath) (max_retries : Z).

(** An attempt answered by an early failure. *)
Lemma try_body_early w r rest :
  path_exists (fs w) dest_file = false →
  net w !! series_id = Some (r :: rest) →
  early_failure r = true →
  ∃ e, try_body series_id dest_file w
       = (Raise e, mkWorld (fs w) (<[series_id := rest]> (net w))
                     (log w ++ [EvExists dest_file; EvGet series_id])).
Proof.
  intros Hex Hnet Hr. rewrite try_body_unfold. simpl. rewrite Hex.
  unfold requests_get. simpl. rewrite Hnet, <- app_assoc. simpl.
  destruct r as [|st md body br]; [by eauto|]. simpl in Hr.
  destruct (http_error st); [by eauto|].
  destruct (json_loads_header md) as [m|]; [|by eauto].
  destruct (filetype_of m) as [ft|]; [|by eauto].
  destruct (is_zip ft); [done|by eauto].
Qed.

(** An attempt answered by a good response with the tag ["ZIP"], in a
    place where the file can be created. *)
Lemma try_body_zip w status metadata body broken rest document filetype :
  path_exists (fs w) dest_file = false →
  is_dir (fs w) (parent dest_file) = true →
  net w !! series_id = Some (Reply status metadata body broken :: rest) →
  http_error status = false →
  json_loads_header metadata = Ok document →
  filetype_of document = Ok filetype →
  is_zip filetype = true →
  try_body series_id dest_file w
  = (if broken then Raise ChunkedEncodingError else Ok AtWritten,
     write_chunks dest_file body
       (emit (EvOpenWb dest_file)
          (mkWorld (<[dest_file := File ""]> (fs w))
             (<[series_id := rest]> (net w))
             (log w ++ [EvExists dest_file; EvGet series_id])))).
Proof.
  intros Hex Hpar Hnet Hst Hmd Hft Hzip. rewrite try_body_unfold. simpl.
  rewrite Hex. unfold requests_get. simpl.
  rewrite Hnet, Hst, Hmd, Hft, Hzip, <- app_assoc. simpl.
  unfold open_wb. simpl.
  assert (is_dir (fs w) dest_file = false) as ->.
  { unfold path_exists in Hex. unfold is_dir.
    by destruct (lookup_node (fs w) dest_file). }
  rewrite Hpar. by destruct broken.
Qed.

Lemma zip_written_content w net' log' body :
  fs (write_chunks dest_file body
        (emit (EvOpenWb dest_file)
           (mkWorld (<[dest_file := File ""]> (fs w)) net' log')))
    !! dest_file = Some (File (joined body)).
Proof.
  rewrite (write_chunks_content dest_file body _ ""); [done|].
  simpl. by rewrite lookup_insert_eq.
Qed.

Lemma zip_written_timeline w' body :
  ∃ evs, log (write_chunks dest_file body w') = log w' ++ evs ∧ timeline evs = [].
Proof.
  destruct (write_chunks_log dest_file body w') as (evs & Hlog & Hevs).
  exists evs. split; [done|].
  by destruct (writes_quiet series_id dest_file max_retries evs Hevs) as [? _].
Qed.

(** After the early failures [fails], a good response is written. *)
Lemma retry_loop_recovers fails : ∀ rc w status metadata body rest document filetype,
  net w !! series_id = Some (fails ++ Reply status metadata body false :: rest) →
  Forall (λ r, early_failure r = true) fails →
  rc + Z.of_nat (length fails) ≤ max_retries →
  http_error status = false →
  json_loads_header metadata = Ok document →
  filetype_of document = Ok filetype →
  is_zip filetype = true →
  path_exists (fs w) dest_file = false →
  is_dir (fs w) (parent dest_file) = true →
  ∃ w' evs,
    retry_loop series_id dest_file max_retries rc w = (Ok (dest_file, AtWritten), w')
    ∧ fs w' !! dest_file = Some (File (joined body))
    ∧ net w' !! series_id = Some rest
    ∧ log w' = log w ++ evs
    ∧ timeline evs = spaced_requests series_id (S (length fails)).
Proof.
  induction fails as [|r fails IH];
    intros rc w st md body rest doc ft Hnet Hfails Hrc Hst Hmd Hft Hzip Hex Hpar;
    rewrite retry_loop_turn; simpl in Hrc; (rewrite decide_True by lia).
  - rewrite (try_body_zip w st md body false rest doc ft) by done.
    set (wo := emit (EvOpenWb dest_file) _).
    destruct (zip_written_timeline wo body) as (evs & Hlog & Htl).
    eexists _, _. split; [done|]. split; [apply zip_written_content|].
    split; [by rewrite write_chunks_net; simpl; rewrite lookup_insert_eq|].
    rewrite Hlog. simpl. rewrite <- !app_assoc. split; [done|].
    simpl. by rewrite Htl.
  - apply Forall_cons in Hfails as [Hr Hfails].
    destruct (try_body_early w r _ Hex Hnet Hr) as [e ->].
    unfold except_clause. rewrite decide_False by lia.
    set (w3 := sleep 1 _).
    destruct (IH (rc + 1) w3 st md body rest doc ft) as (w' & evs & -> & Hc & Hn & Hlog & Htl);
      try done.
    { simpl. by rewrite lookup_insert_eq. }
    { lia. }
    eexists _, _. split; [done|]. split; [done|]. split.
    { rewrite Hn. done. }
    rewrite Hlog. simpl. rewrite <- !app_assoc. split; [done|].
    simpl. by rewrite Htl.
Qed.

End Recovery.

(** X10. A fetch recovers from failures within its budget: when the
    responses to come are [k ≤ max_retries] early failures followed by a
    good response with the tag ["ZIP"] and an unbroken body, and the file
    can be created, [download_series] returns after writing the file, which
    then holds the chunks of the body end to end; it has made [k + 1]
    requests with a pause of one second between each two, and the responses
    after the good one are left for later. *)
Theorem X10_recovers_within_budget series_id dest_file max_retries w
    fails status metadata body rest document filetype :
  net w !! series_id = Some (fails ++ Reply status metadata body false :: rest) →
  Forall (λ r, early_failure r = true) fails →
  Z.of_nat (length fails) ≤ max_retries →
  http_error status = false →
  json_loads_header metadata = Ok document →
  filetype_of document = Ok filetype →
  is_zip filetype = true →
  path_exists (fs w) dest_file = false →
  is_dir (fs w) (parent dest_file) = true →
  ∃ w' evs,
    download_series series_id dest_file max_retries w = (Ok (dest_file, AtWritten), w')
    ∧ fs w' !! dest_file = Some (File (joined body))
    ∧ net w' !! series_id = Some rest
    ∧ log w' = log w ++ evs
    ∧ timeline evs = spaced_requests series_id (S (length fails)).
Proof.
  intros. unfold download_series. by eapply retry_loop_recovers.
Qed.

Lemma X10_recovers_within_budget_witness :
  let zip := JObj [("Result", JObj [("Type", JArr [JStr "ZIP"; JStr "x"])])] in
  let dest := Path false ["out"; "1.2.3.zip"] in
  let w := mkWorld {[ Path false ["out"] := Dir ]}
             {[ "1.2.3" := [ConnFail; Reply 404 NoHeader [] false;
                            Reply 200 (Parsed zip) ["PK"; ""; "data"] false] ]} [] in
  ∃ w' evs,
    download_series "1.2.3" dest 2 w = (Ok (dest, AtWritten), w')
    ∧ fs w' !! dest = Some (File (joined ["PK"; ""; "data"]))
    ∧ net w' !! "1.2.3" = Some []
    ∧ log w' = log w ++ evs
    ∧ timeline evs = spaced_requests "1.2.3" (S (length [ConnFail; Reply 404 NoHeader [] false])).
Proof.
  intros zip dest w.
  apply (X10_recovers_within_budget "1.2.3" dest 2 w
           [ConnFail; Reply 404 NoHeader [] false] 200 (Parsed zip)
           ["PK"; ""; "data"] [] zip (JStr "ZIP")).
  - reflexivity.
  - by repeat constructor.
  - simpl. lia.
  - reflexivity.
  - reflexivity.
  - reflexivity.
  - reflexivity.
  - reflexivity.
  - reflexivity.
Defined.

(** X11. A stream that breaks after the file is open does not cost a
    second request when a retry is left: the attempt raises, the loop
    pauses, and the next turn finds the partial file and returns it as the
    download. The file holds the chunks received before the break. *)
Theorem X11_partial_file_returned series_id dest_file max_retries w
    status metadata body rest document filetype :
  1 ≤ max_retries →
  net w !! series_id = Some (Reply status metadata body true :: rest) →
  http_error status = false →
  json_loads_header metadata = Ok document →
  filetype_of document = Ok filetype →
  is_zip filetype = true →
  path_exists (fs w) dest_file = false →
  is_dir (fs w) (parent dest_file) = true →
  ∃ w' evs,
    download_series series_id dest_file max_retries w = (Ok (dest_file, AtExists), w')
    ∧ fs w' !! dest_file = Some (File (joined body))
    ∧ log w' = log w ++ evs
    ∧ timeline evs = [EvGet series_id; EvSleep 1].
Proof.
  intros Hmax Hnet Hst Hmd Hft Hzip Hex Hpar. unfold download_series.
  rewrite retry_loop_turn, decide_True by lia.
  rewrite (try_body_zip series_id dest_file w status metadata body true rest
             document filetype) by done.
  unfold except_clause. rewrite decide_False by lia.
  set (wo := emit (EvOpenWb dest_file) _).
  destruct (zip_written_timeline series_id dest_file max_retries wo body)
    as (evs & Hlog & Htl).
  pose proof (zip_written_content dest_file w (<[series_id := rest]> (net w))
                (log w ++ [EvExists dest_file; EvGet series_id]) body) as Hc.
  fold wo in Hc.
  set (w3 := sleep 1 _).
  assert (path_exists (fs w3) dest_file = true) as Hex3.
  { simpl. unfold path_exists, lookup_node. destruct (parts dest_file); [done|].
    by rewrite Hc. }
  rewrite retry_loop_turn, decide_True by lia.
  rewrite (try_body_exists _ _ _ Hex3).
  eexists _, _. split; [done|]. split; [done|].
  simpl. rewrite Hlog. simpl. rewrite <- !app_assoc. split; [done|].
  simpl. rewrite timeline_app, Htl. done.
Qed.

Lemma X11_partial_file_returned_witness :
  let zip := JObj [("Result", JObj [("Type", JArr [JStr "ZIP"])])] in
  let dest := Path false ["out"; "1.2.3.zip"] in
  let w := mkWorld {[ Path false ["out"] := Dir ]}
             {[ "1.2.3" := [Reply 200 (Parsed zip) ["PK"] true] ]} [] in
  ∃ w' evs,
    download_series "1.2.3" dest 1 w = (Ok (dest, AtExists), w')
    ∧ fs w' !! dest = Some (File (joined ["PK"]))
    ∧ log w' = log w ++ evs
    ∧ timeline evs = [EvGet "1.2.3"; EvSleep 1].
Proof.
  intros zip dest w.
  apply (X11_partial_file_returned "1.2.3" dest 1 w 200 (Parsed zip) ["PK"] []
           zip (JStr "ZIP")); first [reflexivity | lia].
Defined.

(** ** The orchestrator *)

Section OrchestratorMore.
Context (folder : PurePath) (no_of_retries : Z).

Local Abbreviation submit := (λ series_id : string,
  act (emit (EvSubmit series_id (job_dest folder series_id) no_of_retries))).
Local Abbreviation fetch := (λ series_id : string,
  download_series series_id (job_dest folder series_id) no_of_retries).

Lemma submit_all_spec ids w :
  ∃ us, for_each submit ids w
        = (Ok us, mkWorld (fs w) (net w)
                    (log w ++ map (λ series_id,
                       EvSubmit series_id (job_dest folder series_id) no_of_retries) ids)).
Proof.
  revert w. induction ids as [|x ids IH]; intros w; simpl.
  - exists []. rewrite app_nil_r. by destruct w.
  - unfold mbind, M_bind, act at 1.
    destruct (IH (emit (EvSubmit x (job_dest folder x) no_of_retries) w)) as [us ->].
    simpl. rewrite <- app_assoc. by eexists.
Qed.

Lemma fetch_all_returns ids w :
  ∃ rs w', for_each fetch ids w = (Ok rs, w').
Proof.
  revert w. induction ids as [|x ids IH]; intros w; simpl; [by eauto|].
  unfold mbind, M_bind at 1. unfold download_series at 1.
  destruct (retry_loop_returns x (job_dest folder x) no_of_retries 0 w) as (s & w1 & ->).
  unfold mbind, M_bind at 1. destruct (IH w1) as (rs & w' & ->). by eauto.
Qed.

(** With a negative retry count the jobs do nothing at all. *)
Lemma fetch_all_noop ids w :
  no_of_retries < 0 →
  for_each fetch ids w
  = (Ok (map (λ series_id, (job_dest folder series_id, AfterLoop)) ids), w).
Proof.
  intros Hneg. revert w. induction ids as [|x ids IH]; intros w; simpl; [done|].
  unfold mbind, M_bind at 1. unfold download_series at 1.
  rewrite retry_loop_turn, decide_False by lia.
  unfold mbind, M_bind at 1. by rewrite IH.
Qed.

Lemma retry_loop_existing series_id dest_file rc w :
  path_exists (fs w) dest_file = true →
  ∃ evs, log (retry_loop series_id dest_file no_of_retries rc w).2 = log w ++ evs
         ∧ List.filter is_get evs = [].
Proof.
  intros Hex. rewrite retry_loop_turn. case_decide.
  - rewrite try_body_exists by done. by exists [EvExists dest_file].
  - exists []. by rewrite app_nil_r.
Qed.

Lemma filter_get_no_request series_id evs :
  List.filter is_get evs = [] → EvGet series_id ∉ evs.
Proof.
  intros Hf Hin. apply list_elem_of_In in Hin.
  assert (In (EvGet series_id) (List.filter is_get evs)) as Hin'
    by (by apply List.filter_In).
  by rewrite Hf in Hin'.
Qed.

(** A series whose destination exists is not requested by any job. *)
Lemma fetch_all_skips series_id ids : ∀ w r w',
  path_exists (fs w) (job_dest folder series_id) = true →
  for_each fetch ids w = (r, w') →
  ∃ evs, log w' = log w ++ evs ∧ EvGet series_id ∉ evs.
Proof.
  induction ids as [|x ids IH]; intros w r w' Hex; simpl.
  - intros [= <- <-]. exists []. rewrite app_nil_r. split; [done|]. by intros ?%elem_of_nil.
  - unfold mbind, M_bind at 1. unfold download_series at 1.
    pose proof (retry_loop_grows x (job_dest folder x) no_of_retries 0 w) as Hg.
    destruct (retry_loop_events x (job_dest folder x) no_of_retries 0 w)
      as (evs1 & Hlog1 & _ & _ & Hall); [lia|].
    assert (EvGet series_id ∉ evs1) as Hno.
    { destruct (decide (x = series_id)) as [->|Hne].
      - destruct (retry_loop_existing series_id (job_dest folder series_id) 0 w Hex)
          as (evs & Hlog & Hf).
        rewrite Hlog1 in Hlog. apply app_inv_head in Hlog as ->.
        by apply filter_get_no_request.
      - intros Hin. rewrite Forall_forall in Hall. by apply Hall in Hin. }
    destruct (retry_loop x (job_dest folder x) no_of_retries 0 w) as [[[d s]|e] w1];
      simpl in *.
    + unfold mbind, M_bind at 1.
      destruct (for_each fetch ids w1) as [r1 w2] eqn:Hrest.
      destruct (IH w1 r1 w2) as (evs2 & Hlog2 & Hno2); [by eapply grows_exists|done|].
      intros Hres. assert (w' = w2) as -> by (destruct r1; by injection Hres).
      exists (evs1 ++ evs2). rewrite Hlog2, Hlog1, <- app_assoc. split; [done|].
      intros [?|?]%elem_of_app; done.
    + intros [= <- <-]. by exists evs1.
Qed.

End OrchestratorMore.

Section Setup.
Context (manifest_path output_base_path : string).

Let p := path_of_string manifest_path.
Let folder := join (path_of_string output_base_path) (name p).

(** Once the folder is made and the manifest copied, the manifest is still
    a file and parses as its text does. *)
Lemma setup_keeps_manifest f f1 f2 text :
  read_text f p = Ok text →
  mkdir_parents f folder = Ok f1 →
  shutil_copy f1 p folder = Ok f2 →
  is_file f1 p = true ∧ parse_manifest f2 p = Ok (parse_text text).
Proof.
  intros Hread Hmk Hcp.
  assert (is_file f1 p = true) as Hfile.
  { rewrite (mkdir_parents_is_file _ _ _ _ Hmk). by eapply read_text_is_file. }
  split; [done|].
  destruct (shutil_copy_spec _ _ _ _ Hcp (mkdir_parents_is_dir _ _ _ Hmk))
    as (text' & _ & -> & Hne & _).
  unfold parse_manifest. rewrite read_text_insert_ne by done.
  by rewrite (mkdir_parents_read _ _ _ _ Hmk Hfile), Hread.
Qed.

(** What exists before the run exists after the folder is made and the
    manifest copied. *)
Lemma setup_keeps_existing f f1 f2 q :
  mkdir_parents f folder = Ok f1 →
  shutil_copy f1 p folder = Ok f2 →
  path_exists f q = true → path_exists f2 q = true.
Proof.
  intros Hmk Hcp.
  destruct (shutil_copy_spec _ _ _ _ Hcp (mkdir_parents_is_dir _ _ _ Hmk))
    as (text' & _ & -> & _ & _).
  unfold path_exists, lookup_node. destruct (parts q); [done|].
  destruct (decide (join folder (name p) = q)) as [<-|Hne].
  - by rewrite lookup_insert_eq.
  - rewrite lookup_insert_ne by done.
    by destruct (mkdir_parents_spec _ _ _ q Hmk) as [->|(-> & _)].
Qed.

End Setup.



(** X13. A retry entry that cannot be read stops the run before any job is
    submitted: when the manifest is a readable file whose [noOfrRetry] entry
    is empty, or has a first value that [int] rejects, the orchestrator
    raises, having printed at most the line about parsing; once the folder
    is made and the manifest copied the exception is [IndexError] for the
    empty entry and [ValueError] for the rejected value. *)
Theorem X13_unreadable_retry_entry manifest_path output_base_path njobs w text l :
  let p := path_of_string manifest_path in
  let folder := join (path_of_string output_base_path) (name p) in
  read_text (fs w) p = Ok text →
  parse_text text !! "noOfrRetry" = Some l →
  (l = [] ∨ ∃ x l', l = x :: l' ∧ py_int x = Raise ValueError) →
  ∃ e w',
    download_from_manifest manifest_path output_base_path njobs w = (Raise e, w')
    ∧ net w' = net w
    ∧ (log w' = log w ∨ log w' = log w ++ [EvPrint (MsgParsing p)])
    ∧ (∀ f1 f2, mkdir_parents (fs w) folder = Ok f1 →
                shutil_copy f1 p folder = Ok f2 →
                e = match l with [] => IndexError | _ => ValueError end).
Proof.
  intros p folder Hread Hkey Hbad.
  rewrite download_from_manifest_unfold. fold p. fold folder.
  destruct (mkdir_parents (fs w) folder) as [f1|e] eqn:Hmk.
  2:{ exists e, w. repeat split; try done. by left. }
  destruct (shutil_copy f1 p folder) as [f2|e] eqn:Hcp.
  2:{ destruct (is_file f1 p).
      - exists e, (set_fs f1 w). repeat split; try done; [by left|].
        intros ?? [= <-] Hc. congruence.
      - exists ValueError, (set_fs f1 w). repeat split; try done; [by left|].
        intros ?? [= <-] Hc. congruence. }
  destruct (setup_keeps_manifest manifest_path output_base_path _ _ _ _ Hread Hmk Hcp)
    as [Hfile Hparse].
  fold p in Hfile, Hparse. rewrite Hfile, Hparse.
  unfold get_retry_entry. rewrite Hkey.
  assert (∀ e, e = match l with [] => IndexError | _ => ValueError end →
            ∃ e0 w0, (@Raise (list (PurePath * site)) e,
                      print (MsgParsing p) (set_fs f2 w)) = (Raise e0, w0)
              ∧ net w0 = net w
              ∧ (log w0 = log w ∨ log w0 = log w ++ [EvPrint (MsgParsing p)])
              ∧ (∀ f1' f2', Ok f1 = Ok f1' → shutil_copy f1' p folder = Ok f2' →
                   e0 = match l with [] => IndexError | _ => ValueError end)) as Hstop.
  { intros e ->. eexists _, _. repeat split; try done. by right. }
  destruct Hbad as [->|(x & l' & -> & Hx)]; simpl.
  - by apply Hstop.
  - rewrite Hx. by apply Hstop.
Qed.

Lemma X13_unreadable_retry_entry_witness :
  let text := "ListOfSeriesToDownload=1.2.3
noOfrRetry=two
" in
  let w := mkWorld {[ Path false ["m.tcia"] := File text ]} ∅ [] in
  let p := path_of_string "m.tcia" in
  let folder := join (path_of_string "out") (name p) in
  ∃ e w',
    download_from_manifest "m.tcia" "out" 1 w = (Raise e, w')
    ∧ net w' = net w
    ∧ (log w' = log w ∨ log w' = log w ++ [EvPrint (MsgParsing p)])
    ∧ (∀ f1 f2, mkdir_parents (fs w) folder = Ok f1 →
                shutil_copy f1 p folder = Ok f2 →
                e = match ["two"] with [] => IndexError | _ => ValueError end).
Proof.
  intros text w p folder.
  apply (X13_unreadable_retry_entry "m.tcia" "out" 1 w text ["two"]).
  - by vm_compute.
  - by vm_compute.
  - right. exists "two", []. split; [done|]. by vm_compute.
Defined.

(** X14. A negative retry count in the manifest turns the run into one
    that downloads nothing: every job returns through the end of its loop,
    and the events of the run are only the lines printed and the jobs
    submitted, with no existence check, no request and no write. *)
Theorem X14_negative_retry_count manifest_path output_base_path njobs w text x l n :
  let p := path_of_string manifest_path in
  let folder := join (path_of_string output_base_path) (name p) in
  let run := download_from_manifest manifest_path output_base_path njobs w in
  read_text (fs w) p = Ok text →
  parse_text text !! "noOfrRetry" = Some (x :: l) →
  py_int x = Ok n →
  n < 0 →
  (∃ evs, log run.2 = log w ++ evs ∧ Forall (λ ev, is_own ev = true) evs)
  ∧ net run.2 = net w
  ∧ ∀ results, run.1 = Ok results →
      results = map (λ series_id, (job_dest folder series_id, AfterLoop))
                  (default [] (parse_text text !! "ListOfSeriesToDownload")).
Proof.
  intros p folder run Hread Hkey Hx Hneg. subst run.
  rewrite download_from_manifest_unfold. fold p. fold folder.
  assert (∀ (r : result (list (PurePath * site))) w' evs,
            net w' = net w → log w' = log w ++ evs →
            Forall (λ ev, is_own ev = true) evs → is_ok r = false →
            (∃ evs, log (r, w').2 = log w ++ evs ∧ Forall (λ ev, is_own ev = true) evs)
            ∧ net (r, w').2 = net w
            ∧ ∀ results, (r, w').1 = Ok results →
                results = map (λ series_id, (job_dest folder series_id, AfterLoop))
                            (default [] (parse_text text !! "ListOfSeriesToDownload")))
    as Hstop.
  { intros r w' evs Hnet Hlog Hevs Hr. split; [by eauto|]. split; [done|].
    simpl. intros results ->. done. }
  destruct (mkdir_parents (fs w) folder) as [f1|e] eqn:Hmk.
  2:{ apply (Hstop _ _ []); try done. by rewrite app_nil_r. }
  destruct (shutil_copy f1 p folder) as [f2|e] eqn:Hcp.
  2:{ destruct (is_file f1 p); apply (Hstop _ _ []); try done; by rewrite app_nil_r. }
  destruct (setup_keeps_manifest manifest_path output_base_path _ _ _ _ Hread Hmk Hcp)
    as [Hfile Hparse].
  fold p in Hfile, Hparse. rewrite Hfile, Hparse.
  unfold get_retry_entry. rewrite Hkey. simpl. rewrite Hx.
  set (ids := default [] (parse_text text !! "ListOfSeriesToDownload")).
  destruct (njobs <=? 0).
  { apply (Hstop _ _ [EvPrint (MsgParsing p);
                      EvPrint (MsgDownloading (length ids) folder)]); try done.
    - simpl. by rewrite <- app_assoc.
    - by repeat constructor. }
  unfold mbind, M_bind.
  set (w3 := print (MsgDownloading (length ids) folder)
               (print (MsgParsing p) (set_fs f2 w))).
  destruct (submit_all_spec folder n ids w3) as [us ->].
  rewrite (fetch_all_noop folder n ids _ Hneg). simpl.
  split; [|by split; [done|intros ? [= <-]]].
  eexists. rewrite <- !app_assoc. split; [done|]. simpl.
  repeat (constructor; [done|]). apply Forall_app. split; [|by repeat constructor].
  clear. induction ids; by constructor.
Qed.

Lemma X14_negative_retry_count_witness :
  let text := "ListOfSeriesToDownload=1.2.3
4.5.6
noOfrRetry=-1
" in
  let w := mkWorld {[ Path false ["m.tcia"] := File text ]}
             {[ "1.2.3" := [ConnFail] ]} [] in
  let p := path_of_string "m.tcia" in
  let folder := join (path_of_string "out") (name p) in
  let run := download_from_manifest "m.tcia" "out" 5 w in
  (∃ evs, log run.2 = log w ++ evs ∧ Forall (λ ev, is_own ev = true) evs)
  ∧ net run.2 = net w
  ∧ ∀ results, run.1 = Ok results →
      results = map (λ series_id, (job_dest folder series_id, AfterLoop))
                  (default [] (parse_text text !! "ListOfSeriesToDownload")).
Proof.
  intros text w p folder run.
  apply (X14_negative_retry_count "m.tcia" "out" 5 w text "-1" [] (-1)).
  - by vm_compute.
  - by vm_compute.
  - by vm_compute.
  - lia.
Defined.

(** X15. A series whose destination file exists before the run is never
    requested from the service, however the run ends: a second run over the
    same folder asks only for what is missing. *)
Theorem X15_existing_never_requested manifest_path output_base_path njobs w series_id :
  let p := path_of_string manifest_path in
  let folder := join (path_of_string output_base_path) (name p) in
  let run := download_from_manifest manifest_path output_base_path njobs w in
  path_exists (fs w) (job_dest folder series_id) = true →
  ∃ evs, log run.2 = log w ++ evs ∧ EvGet series_id ∉ evs.
Proof.
  intros p folder run Hex. subst run.
  rewrite download_from_manifest_unfold. fold p. fold folder.
  assert (∀ evs, Forall (λ ev, is_own ev = true) evs → EvGet series_id ∉ evs) as Hown.
  { intros evs Hall Hin. rewrite Forall_forall in Hall. by apply Hall in Hin. }
  assert (∀ (r : result (list (PurePath * site))) w' evs,
            log w' = log w ++ evs → Forall (λ ev, is_own ev = true) evs →
            ∃ evs, log (r, w').2 = log w ++ evs ∧ EvGet series_id ∉ evs) as Hstop.
  { intros r w' evs Hlog Hall. exists evs. split; [done|]. by apply Hown. }
  destruct (mkdir_parents (fs w) folder) as [f1|e] eqn:Hmk.
  2:{ apply (Hstop _ _ []); [by rewrite app_nil_r|done]. }
  destruct (is_file f1 p).
  2:{ apply (Hstop _ _ []); [by rewrite app_nil_r|done]. }
  destruct (shutil_copy f1 p folder) as [f2|e] eqn:Hcp.
  2:{ apply (Hstop _ _ []); [by rewrite app_nil_r|done]. }
  pose proof (setup_keeps_existing manifest_path output_base_path _ _ _ _ Hmk Hcp Hex)
    as Hex2.
  fold p in Hex2. fold folder in Hex2.
  destruct (parse_manifest f2 p) as [md|];
    [|apply (Hstop _ _ [EvPrint (MsgParsing p)]); [done|by repeat constructor]].
  destruct (first_item (get_retry_entry md)) as [item|];
    [|apply (Hstop _ _ [EvPrint (MsgParsing p)]); [done|by repeat constructor]].
  destruct (py_int item) as [mr|];
    [|apply (Hstop _ _ [EvPrint (MsgParsing p)]); [done|by repeat constructor]].
  set (ids := default [] (md !! "ListOfSeriesToDownload")). cbv zeta.
  destruct (njobs <=? 0).
  { apply (Hstop _ _ [EvPrint (MsgParsing p);
                      EvPrint (MsgDownloading (length ids) folder)]).
    - simpl. by rewrite <- app_assoc.
    - by repeat constructor. }
  unfold mbind, M_bind.
  set (w3 := print (MsgDownloading (length ids) folder)
               (print (MsgParsing p) (set_fs f2 w))).
  destruct (submit_all_spec folder mr ids w3) as [us ->].
  set (w4 := mkWorld (fs w3) (net w3) _).
  destruct (for_each _ ids w4) as [r w5] eqn:Hjobs.
  destruct (fetch_all_skips folder mr series_id ids w4 r w5 Hex2 Hjobs)
    as (evs & Hlog & Hno).
  set (submits := map (λ s, EvSubmit s (job_dest folder s) mr) ids) in *.
  assert (EvGet series_id ∉ submits) as Hsub.
  { apply Hown. subst submits. clear. induction ids; by constructor. }
  assert (log w5 = log w ++ [EvPrint (MsgParsing p);
                             EvPrint (MsgDownloading (length ids) folder)]
                         ++ submits ++ evs) as Hlog5.
  { rewrite Hlog. simpl. by rewrite <- !app_assoc. }
  destruct r as [rs|e]; simpl.
  - exists ([EvPrint (MsgParsing p); EvPrint (MsgDownloading (length ids) folder)]
            ++ submits ++ evs ++ [EvPrint MsgDone]).
    rewrite Hlog5, <- !app_assoc. split; [done|].
    rewrite !elem_of_app, !elem_of_cons, elem_of_nil. intuition discriminate.
  - exists ([EvPrint (MsgParsing p); EvPrint (MsgDownloading (length ids) folder)]
            ++ submits ++ evs).
    split; [done|].
    rewrite !elem_of_app, !elem_of_cons, elem_of_nil. intuition discriminate.
Qed.

Lemma X15_existing_never_requested_witness :
  let zip := Parsed (JObj [("Result", JObj [("Type", JArr [JStr "ZIP"])])]) in
  let w := mkWorld {[ Path false ["m.tcia"] := File "ListOfSeriesToDownload=1.2.3
noOfrRetry=2
";
                      Path false ["out"] := Dir;
                      Path false ["out"; "m.tcia"] := Dir;
                      Path false ["out"; "m.tcia"; "1.2.3.zip"] := File "PK" ]}
             {[ "1.2.3" := [Reply 200 zip ["new"] false] ]} [] in
  let folder := join (path_of_string "out") (name (path_of_string "m.tcia")) in
  let run := download_from_manifest "m.tcia" "out" 2 w in
  path_exists (fs w) (job_dest folder "1.2.3") = true
  ∧ ∃ evs, log run.2 = log w ++ evs ∧ EvGet "1.2.3" ∉ evs.
Proof.
  intros zip w folder run.
  assert (path_exists (fs w) (job_dest folder "1.2.3") = true) as Hex by (by vm_compute).
  split; [exact Hex|].
  exact (X15_existing_never_requested "m.tcia" "out" 2 w "1.2.3" Hex).
Defined.

(** X16. The remote service cannot make the orchestrator raise, nor change
    the exception it raises or the destinations it reports: two runs from
    the same file system that meet different services end with the same
    exception, or both complete with the same destinations in the same
    order. *)
Theorem X16_outcome_independent_of_service manifest_path output_base_path njobs w net' :
  same_outcome
    (download_from_manifest manifest_path output_base_path njobs w).1
    (download_from_manifest manifest_path output_base_path njobs
       (mkWorld (fs w) net' (log w))).1.
Proof.
  rewrite !download_from_manifest_unfold. simpl fs.
  set (p := path_of_string manifest_path).
  set (folder := join (path_of_string output_base_path) (name p)).
  destruct (mkdir_parents (fs w) folder) as [f1|]; [|done].
  destruct (is_file f1 p); [|done].
  destruct (shutil_copy f1 p folder) as [f2|]; [|done].
  destruct (parse_manifest f2 p) as [md|]; [|done].
  destruct (first_item (get_retry_entry md)) as [item|]; [|done].
  destruct (py_int item) as [mr|]; [|done].
  set (ids := default [] (md !! "ListOfSeriesToDownload")). cbv zeta.
  destruct (njobs <=? 0); [done|].
  unfold mbind, M_bind.
  match goal with
  | |- same_outcome (match for_each ?f ids ?a with _ => _ end).1 _ =>
      destruct (submit_all_spec folder mr ids a) as [us1 ->]
  end.
  match goal with
  | |- same_outcome _ (match for_each ?f ids ?a with _ => _ end).1 =>
      destruct (submit_all_spec folder mr ids a) as [us2 ->]
  end.
  match goal with
  | |- same_outcome (match for_each ?f ids ?a with _ => _ end).1 _ =>
      destruct (for_each f ids a) as [[rs1|] w1] eqn:H1;
      [|by destruct (fetch_all_returns folder mr ids a) as (? & ? & ?); congruence]
  end.
  match goal with
  | |- same_outcome _ (match for_each ?f ids ?a with _ => _ end).1 =>
      destruct (for_each f ids a) as [[rs2|] w2] eqn:H2;
      [|by destruct (fetch_all_returns folder mr ids a) as (? & ? & ?); congruence]
  end.
  simpl.
  destruct (run_jobs_spec _ _ _ _ _ _ H1) as (_ & -> & _).
  by destruct (run_jobs_spec _ _ _ _ _ _ H2) as (_ & -> & _).
Qed.
